(** * daikin_ir: a shallow embedding of the IR learn-and-replay sketch

    The sketch [daikin_ir.ino] records two infrared patterns from a receiver
    pin and replays them twice a day.  This file embeds its global variables
    as a record, its functions as commands of a small reader/state/error/
    writer monad, and proves the properties of the capture, playback, button
    and scheduling code.

    Conventions of the embedding.
    - Integers are [Z] with the wrap-around of their C type written out
      ([wrap8], [wrap16], [wrap32]); the target is the ATmega328 named in the
      source, where [unsigned long] is 32 bits wide and data pointers are
      two bytes.
    - [sig] is the flat row-major image of [uint16_t sig[2][400]]: cell
      [400 * i + k] is [sig[i][k]].  A pointer into [sig] is the index of the
      cell it points to; [None] is [nullptr].
    - One call of a function sees one sample of the hardware inputs
      ([Inputs]): the sketch reads each pin and each clock at most once per
      call of [loop].
    - A load or store outside the [sig] object is undefined behaviour in the
      source; the embedding returns [None] there. *)

From Stdlib Require Import ZArith Lia.
From stdpp Require Import base option list gmap.

Local Open Scope Z_scope.

(** ** Machine integers *)

Definition wrap8 (z : Z) : Z := z mod 2 ^ 8.
Definition wrap16 (z : Z) : Z := z mod 2 ^ 16.
Definition wrap32 (z : Z) : Z := z mod 2 ^ 32.

(** [a - b] and [a * b] on [uint32_t]. *)
Definition sub32 (a b : Z) : Z := wrap32 (a - b).
Definition mul32 (a b : Z) : Z := wrap32 (a * b).

(** ** Constants of the sketch *)

(** Modelled from the spec: digital levels are boolean; the Arduino core,
    which is not part of the repository, defines them as [HIGH = 1] and
    [LOW = 0]. *)
Definition HIGH : Z := 1.
Definition LOW : Z := 0.

(** Modelled from the spec: the "secondary status indicator" is the board's
    built-in LED, pin 13 in the Arduino core for the ATmega328 boards. *)
Definition LED_BUILTIN : Z := 13.

Definition kRxTimeoutMicros : Z := Z.shiftl 1 16.
Definition kDelay1Millis : Z := mul32 (mul32 (mul32 12 60) 60) 1000.
Definition kCycleMillis : Z := mul32 (mul32 (mul32 24 60) 60) 1000.
Definition kCarrierFreq : Z := 38000.

Definition kRedLedPin : Z := 3.
Definition kButtonPin : Z := 4.
Definition kGreenLedPin : Z := 5.
Definition kTxPin : Z := 6.
Definition kRxPin : Z := 8.

(** [enum State]: the enumerators are consecutive from 0. *)
Definition STATE_UNINITED : Z := 0.
Definition STATE_LEARN_0 : Z := 1.
Definition STATE_LEARN_1 : Z := 2.
Definition STATE_INITED : Z := 3.
Definition STATE_SEND_0 : Z := 4.
Definition STATE_WAIT_0 : Z := 5.
Definition STATE_SEND_1 : Z := 6.
Definition STATE_WAIT_1 : Z := 7.

(** The eight enumerators, in the order of the [enum]. *)
Definition enumerated (s : Z) : Prop := 0 <= s <= 7.

(** [sizeof(sig[i]) / sizeof( *sig[i])]: the number of cells of one slot. *)
Definition kSlotLen : nat := 400.
(** The number of cells of the whole [sig] object. *)
Definition kSigLen : nat := 800.

(** [sig[i]] decayed to a pointer: the index of its first cell. *)
Definition slotBase (i : nat) : nat := (kSlotLen * i)%nat.

(** The cells of slot [i] of a memory image. *)
Definition slot (i : nat) (mem : list Z) : list Z :=
  take kSlotLen (drop (slotBase i) mem).

(** ** Global variables, inputs and outputs *)

Record Machine : Type := mkMachine {
  state : Z;                    (* uint8_t *)
  prevButton : Z;               (* uint8_t *)
  sig : list Z;                 (* uint16_t [2][400] *)
  rxBuf : option nat;           (* uint16_t * *)
  rxSize : Z;                   (* uint16_t *)
  prevRx : Z;                   (* uint8_t *)
  startMicros : Z;              (* uint32_t *)
  txBuf : option nat;           (* uint16_t * *)
  txLen : Z;                    (* uint16_t *)
  txHigh : bool;
  waitStartMillis : Z;          (* uint32_t *)
  waitDelayMillis : Z;          (* uint32_t *)
  pins : gmap Z Z               (* the output latches written by digitalWrite *)
}.

(** What the hardware shows during one call: the levels of the two input
    pins, as [digitalRead] returns them (HIGH or LOW), and the readings of
    the two 32-bit clocks, as [micros] and [millis] return them. *)
Record Inputs : Type := mkInputs {
  in_button : Z;
  in_rx : Z;
  in_micros : Z;
  in_millis : Z
}.

(** The calls into the Arduino core that drive hardware, in program order. *)
Inductive event : Type :=
  | EvDigitalWrite (pin level : Z)
  | EvTone (pin freq : Z)
  | EvNoTone (pin : Z)
  | EvDelayMicroseconds (us : Z).

Definition set_state (v : Z) (m : Machine) : Machine :=
  mkMachine v (prevButton m) (sig m) (rxBuf m) (rxSize m) (prevRx m)
    (startMicros m) (txBuf m) (txLen m) (txHigh m) (waitStartMillis m)
    (waitDelayMillis m) (pins m).
Definition set_prevButton (v : Z) (m : Machine) : Machine :=
  mkMachine (state m) v (sig m) (rxBuf m) (rxSize m) (prevRx m)
    (startMicros m) (txBuf m) (txLen m) (txHigh m) (waitStartMillis m)
    (waitDelayMillis m) (pins m).
Definition set_sig (v : list Z) (m : Machine) : Machine :=
  mkMachine (state m) (prevButton m) v (rxBuf m) (rxSize m) (prevRx m)
    (startMicros m) (txBuf m) (txLen m) (txHigh m) (waitStartMillis m)
    (waitDelayMillis m) (pins m).
Definition set_rxBuf (v : option nat) (m : Machine) : Machine :=
  mkMachine (state m) (prevButton m) (sig m) v (rxSize m) (prevRx m)
    (startMicros m) (txBuf m) (txLen m) (txHigh m) (waitStartMillis m)
    (waitDelayMillis m) (pins m).
Definition set_rxSize (v : Z) (m : Machine) : Machine :=
  mkMachine (state m) (prevButton m) (sig m) (rxBuf m) v (prevRx m)
    (startMicros m) (txBuf m) (txLen m) (txHigh m) (waitStartMillis m)
    (waitDelayMillis m) (pins m).
Definition set_prevRx (v : Z) (m : Machine) : Machine :=
  mkMachine (state m) (prevButton m) (sig m) (rxBuf m) (rxSize m) v
    (startMicros m) (txBuf m) (txLen m) (txHigh m) (waitStartMillis m)
    (waitDelayMillis m) (pins m).
Definition set_startMicros (v : Z) (m : Machine) : Machine :=
  mkMachine (state m) (prevButton m) (sig m) (rxBuf m) (rxSize m) (prevRx m)
    v (txBuf m) (txLen m) (txHigh m) (waitStartMillis m)
    (waitDelayMillis m) (pins m).
Definition set_txBuf (v : option nat) (m : Machine) : Machine :=
  mkMachine (state m) (prevButton m) (sig m) (rxBuf m) (rxSize m) (prevRx m)
    (startMicros m) v (txLen m) (txHigh m) (waitStartMillis m)
    (waitDelayMillis m) (pins m).
Definition set_txLen (v : Z) (m : Machine) : Machine :=
  mkMachine (state m) (prevButton m) (sig m) (rxBuf m) (rxSize m) (prevRx m)
    (startMicros m) (txBuf m) v (txHigh m) (waitStartMillis m)
    (waitDelayMillis m) (pins m).
Definition set_txHigh (v : bool) (m : Machine) : Machine :=
  mkMachine (state m) (prevButton m) (sig m) (rxBuf m) (rxSize m) (prevRx m)
    (startMicros m) (txBuf m) (txLen m) v (waitStartMillis m)
    (waitDelayMillis m) (pins m).
Definition set_waitStartMillis (v : Z) (m : Machine) : Machine :=
  mkMachine (state m) (prevButton m) (sig m) (rxBuf m) (rxSize m) (prevRx m)
    (startMicros m) (txBuf m) (txLen m) (txHigh m) v
    (waitDelayMillis m) (pins m).
Definition set_waitDelayMillis (v : Z) (m : Machine) : Machine :=
  mkMachine (state m) (prevButton m) (sig m) (rxBuf m) (rxSize m) (prevRx m)
    (startMicros m) (txBuf m) (txLen m) (txHigh m) (waitStartMillis m)
    v (pins m).
Definition set_pins (v : gmap Z Z) (m : Machine) : Machine :=
  mkMachine (state m) (prevButton m) (sig m) (rxBuf m) (rxSize m) (prevRx m)
    (startMicros m) (txBuf m) (txLen m) (txHigh m) (waitStartMillis m)
    (waitDelayMillis m) v.

(** ** The command monad

    A command reads the inputs of the current call, threads the machine,
    may fault (undefined behaviour) and emits hardware events. *)

Definition M (A : Type) : Type :=
  Inputs -> Machine -> option (A * Machine * list event).

Definition ret {A : Type} (a : A) : M A :=
  fun _ m => Some (a, m, []).

Definition bind {A B : Type} (c : M A) (k : A -> M B) : M B :=
  fun inp m =>
    match c inp m with
    | None => None
    | Some (a, m1, e1) =>
        match k a inp m1 with
        | None => None
        | Some (b, m2, e2) => Some (b, m2, e1 ++ e2)
        end
    end.

Declare Scope cmd_scope.
Delimit Scope cmd_scope with cmd.
Notation "'do' x <- c ; k" := (bind c (fun x => k))
  (at level 10, x name, c at level 100, k at level 200) : cmd_scope.
Notation "c >> k" := (bind c (fun _ => k))
  (at level 100, k at level 200, right associativity) : cmd_scope.
Local Open Scope cmd_scope.

Definition get : M Machine := fun _ m => Some (m, m, []).
Definition modify (f : Machine -> Machine) : M unit :=
  fun _ m => Some (tt, f m, []).
Definition emit (e : event) : M unit := fun _ m => Some (tt, m, [e]).
Definition fault {A : Type} : M A := fun _ _ => None.
Definition ask : M Inputs := fun inp m => Some (inp, m, []).

(** *** The Arduino core, as far as the sketch uses it *)

(** [digitalRead] of an input pin is the level the inputs of the call show;
    a level is HIGH or LOW, so the conversion to the [uint8_t] it is stored
    in leaves it as it is. *)
Definition digitalRead (pin : Z) : M Z :=
  do inp <- ask;
  ret (if pin =? kButtonPin then in_button inp
       else if pin =? kRxPin then in_rx inp
       else LOW).

Definition digitalWrite (pin level : Z) : M unit :=
  do m <- get;
  modify (set_pins (<[pin := level]> (pins m))) >>
  emit (EvDigitalWrite pin level).

Definition micros : M Z := do inp <- ask; ret (in_micros inp).
Definition millis : M Z := do inp <- ask; ret (in_millis inp).
Definition tone (pin freq : Z) : M unit := emit (EvTone pin freq).
Definition noTone (pin : Z) : M unit := emit (EvNoTone pin).
Definition delayMicroseconds (us : Z) : M unit := emit (EvDelayMicroseconds us).

(** *** Memory accesses through a pointer into [sig] *)

(** [*p] as an rvalue. *)
Definition load16 (p : option nat) : M Z :=
  do m <- get;
  match p with
  | None => fault
  | Some a => match sig m !! a with
              | Some v => ret v
              | None => fault
              end
  end.

(** [*p = v]. *)
Definition store16 (p : option nat) (v : Z) : M unit :=
  do m <- get;
  match p with
  | None => fault
  | Some a => if decide (a < length (sig m))%nat
              then modify (set_sig (<[a := v]> (sig m)))
              else fault
  end.

(** Clearing byte [b] of the image: cell [b / 2], low byte first. *)
Definition zero_byte (b : nat) (mem : list Z) : list Z :=
  match mem !! (b / 2)%nat with
  | Some v => <[(b / 2)%nat := if Nat.even b then v - v mod 256 else v mod 256]> mem
  | None => mem
  end.

(** The byte loop of [memset(_, 0, n)] from byte address [b]. *)
Fixpoint zero_bytes (b n : nat) (mem : list Z) : list Z :=
  match n with
  | O => mem
  | S n' => zero_bytes (S b) n' (zero_byte b mem)
  end.

(** [memset(p, 0, n)] for a pointer [p] into [sig]. *)
Definition memset0 (p : option nat) (n : nat) : M unit :=
  do m <- get;
  match p with
  | None => fault
  | Some a => if decide (2 * a + n <= 2 * length (sig m))%nat
              then modify (set_sig (zero_bytes (2 * a) n (sig m)))
              else fault
  end.

(** [++p] *)
Definition ptr_incr (p : option nat) : M (option nat) :=
  match p with
  | None => fault
  | Some a => ret (Some (S a))
  end.

(** ** The sketch *)

(** [startRx] with [sizeof(rxBuf)], the size of a data pointer, as a
    parameter: the byte count handed to [memset] is
    [rxSize * sizeof(rxBuf)]. *)
Definition startRx_sized (sizeof_rxBuf : nat) (i : nat) : M unit :=
  modify (set_rxBuf (Some (slotBase i))) >>
  modify (set_rxSize (Z.of_nat kSlotLen)) >>
  do m <- get;
  memset0 (rxBuf m) (Z.to_nat (rxSize m) * sizeof_rxBuf)%nat >>
  modify (set_startMicros 0) >>
  modify (set_prevRx HIGH).

(** On the ATmega328 a [uint16_t *] is two bytes wide. *)
Definition startRx (i : nat) : M unit := startRx_sized 2 i.

(** The loop [while (txLen && !txBuf[txLen - 1]) --txLen;] of [startTx], on
    the value of [txLen]; [None] when a load leaves the [sig] object. *)
Fixpoint trimTail (mem : list Z) (base len : nat) : option nat :=
  match len with
  | O => Some O
  | S len' =>
      match mem !! (base + len')%nat with
      | None => None
      | Some v => if v =? 0 then trimTail mem base len' else Some len
      end
  end.

Definition startTx (i : nat) : M unit :=
  digitalWrite kRedLedPin HIGH >>
  modify (set_txBuf (Some (slotBase i))) >>
  modify (set_txLen (Z.of_nat kSlotLen)) >>
  modify (set_txHigh false) >>
  do m <- get;
  match txBuf m with
  | None => fault
  | Some base =>
      match trimTail (sig m) base (Z.to_nat (txLen m)) with
      | None => fault
      | Some n => modify (set_txLen (Z.of_nat n))
      end
  end.

Definition startWait (delayMillis : Z) : M unit :=
  digitalWrite kRedLedPin LOW >>
  do now <- millis;
  modify (set_waitStartMillis now) >>
  modify (set_waitDelayMillis delayMillis).

(** The body of [switch (state)] in [setState], one definition per [case]. *)
Definition enter_UNINITED : M unit :=
  digitalWrite kRedLedPin LOW >> digitalWrite kGreenLedPin LOW.
Definition enter_LEARN_0 : M unit :=
  digitalWrite kRedLedPin HIGH >> digitalWrite kGreenLedPin LOW >> startRx 0.
Definition enter_LEARN_1 : M unit :=
  digitalWrite kRedLedPin HIGH >> digitalWrite kGreenLedPin HIGH >> startRx 1.
Definition enter_INITED : M unit :=
  digitalWrite kRedLedPin LOW >> digitalWrite kGreenLedPin HIGH.
Definition enter_SEND_0 : M unit := startTx 0.
Definition enter_WAIT_0 : M unit :=
  digitalWrite LED_BUILTIN HIGH >> startWait kDelay1Millis.
Definition enter_SEND_1 : M unit := startTx 1.
Definition enter_WAIT_1 : M unit :=
  digitalWrite LED_BUILTIN LOW >> startWait (sub32 kCycleMillis kDelay1Millis).

(** [switch (state)] of [setState]: no [default], so a value that matches no
    [case] runs nothing. *)
Definition switch_state (s : Z) : M unit :=
  if s =? STATE_UNINITED then enter_UNINITED
  else if s =? STATE_LEARN_0 then enter_LEARN_0
  else if s =? STATE_LEARN_1 then enter_LEARN_1
  else if s =? STATE_INITED then enter_INITED
  else if s =? STATE_SEND_0 then enter_SEND_0
  else if s =? STATE_WAIT_0 then enter_WAIT_0
  else if s =? STATE_SEND_1 then enter_SEND_1
  else if s =? STATE_WAIT_1 then enter_WAIT_1
  else ret tt.

Definition setState (newState : Z) : M unit :=
  do m <- get;
  if newState =? state m then ret tt
  else
    modify (set_state newState) >>
    do m' <- get;
    switch_state (state m').

Definition isButtonEvent : M bool :=
  do btn <- digitalRead kButtonPin;
  do m <- get;
  if btn =? prevButton m then ret false
  else
    modify (set_prevButton btn) >>
    ret (btn =? HIGH).

Definition loopUninitialized : M unit :=
  do ev <- isButtonEvent;
  if ev then setState STATE_LEARN_0 else ret tt.

Definition loopRx : M unit :=
  do rx <- digitalRead kRxPin;
  do now <- micros;
  do m <- get;
  if negb (startMicros m =? 0)
     && (kRxTimeoutMicros <=? sub32 now (startMicros m))
  then setState (wrap8 (state m + 1))
  else if rx =? prevRx m then ret tt
  else
    modify (set_prevRx rx) >>
    store16 (rxBuf m) (wrap16 (sub32 now (startMicros m))) >>
    do p <- ptr_incr (rxBuf m);
    modify (set_rxBuf p) >>
    modify (set_rxSize (wrap16 (rxSize m - 1))) >>
    modify (set_startMicros now) >>
    do m' <- get;
    if rxSize m' =? 0 then setState STATE_UNINITED else ret tt.

Definition loopInitialized : M unit :=
  do ev <- isButtonEvent;
  if ev then setState STATE_SEND_0 else ret tt.

Definition loopTx : M unit :=
  do m <- get;
  do d <- load16 (txBuf m);
  (if d =? 0 then ret tt
   else
     (if txHigh m then tone kTxPin kCarrierFreq else noTone kTxPin) >>
     delayMicroseconds d) >>
  do p <- ptr_incr (txBuf m);
  modify (set_txBuf p) >>
  modify (set_txLen (wrap16 (txLen m - 1))) >>
  modify (set_txHigh (negb (txHigh m))) >>
  do m' <- get;
  if txLen m' =? 0 then
    noTone kTxPin >>
    modify (set_txBuf None) >>
    setState (wrap8 (state m' + 1))
  else ret tt.

Definition loopWait : M unit :=
  do ev <- isButtonEvent;
  if ev then setState STATE_SEND_0
  else
    do now <- millis;
    do m <- get;
    if waitDelayMillis m <? sub32 now (waitStartMillis m) then
      modify (set_waitStartMillis 0) >>
      setState (wrap8 (state m + 1))
    else ret tt.

(** [pinMode] only selects the direction of a pin. *)
Definition pinMode (pin mode : Z) : M unit := ret tt.
Definition INPUT_PULLUP : Z := 2.
Definition OUTPUT : Z := 1.

Definition setup : M unit :=
  modify (set_prevButton HIGH) >>
  modify (set_prevRx HIGH) >>
  pinMode kRxPin INPUT_PULLUP >>
  pinMode kButtonPin INPUT_PULLUP >>
  pinMode kTxPin OUTPUT >>
  digitalWrite kTxPin LOW >>
  pinMode kRedLedPin OUTPUT >>
  digitalWrite kRedLedPin LOW >>
  pinMode kGreenLedPin OUTPUT >>
  digitalWrite kGreenLedPin LOW >>
  pinMode LED_BUILTIN OUTPUT >>
  digitalWrite LED_BUILTIN LOW.

Definition loop : M unit :=
  do m <- get;
  let s := state m in
  if s =? STATE_UNINITED then loopUninitialized
  else if (s =? STATE_LEARN_0) || (s =? STATE_LEARN_1) then loopRx
  else if s =? STATE_INITED then loopInitialized
  else if (s =? STATE_SEND_0) || (s =? STATE_SEND_1) then loopTx
  else if (s =? STATE_WAIT_0) || (s =? STATE_WAIT_1) then loopWait
  else setState STATE_SEND_0.

(** ** Running the sketch *)

(** The variables at power-on: static storage is zero-initialised. *)
Definition power_on : Machine :=
  mkMachine 0 0 (replicate kSigLen 0) None 0 0 0 None 0 false 0 0 ∅.

(** The machine after [setup], which reads no input. *)
Definition booted : Machine :=
  match setup (mkInputs LOW LOW 0 0) power_on with
  | Some (_, m, _) => m
  | None => power_on
  end.

(** Calling [c] once per input sample, first sample first. *)
Fixpoint polls (c : M unit) (ins : list Inputs) (m : Machine)
  : option (Machine * list event) :=
  match ins with
  | [] => Some (m, [])
  | inp :: ins' =>
      match c inp m with
      | None => None
      | Some (_, m1, e1) =>
          match polls c ins' m1 with
          | None => None
          | Some (m2, e2) => Some (m2, e1 ++ e2)
          end
      end
  end.

(** The machines the sketch can be in: [setup], then calls of [loop]. *)
Inductive reachable : Machine -> Prop :=
  | reach_boot : reachable booted
  | reach_loop m inp m' evs :
      reachable m -> loop inp m = Some (tt, m', evs) -> reachable m'.

(** ** Input samples *)

(** Two polls that see the button go LOW and back HIGH: one button event. *)
Definition press : list Inputs :=
  [mkInputs LOW HIGH 0 0; mkInputs HIGH HIGH 0 0].

(** A poll that sees the receiver pin at level [rx] at [us] microseconds,
    with the button idle. *)
Definition sample (rx us : Z) : Inputs := mkInputs HIGH rx us 0.

(** A poll at [ms] milliseconds with both input pins idle. *)
Definition tick (ms : Z) : Inputs := mkInputs HIGH HIGH 0 ms.

(** ** The tests and the results of the handlers

    The conditions the handlers test and the machines they leave, named so
    that the closed forms below can be stated. *)

(** The [case] labels of [setState] with their bodies. *)
Definition entry_actions : list (Z * M unit) :=
  [ (STATE_UNINITED, enter_UNINITED); (STATE_LEARN_0, enter_LEARN_0);
    (STATE_LEARN_1, enter_LEARN_1); (STATE_INITED, enter_INITED);
    (STATE_SEND_0, enter_SEND_0); (STATE_WAIT_0, enter_WAIT_0);
    (STATE_SEND_1, enter_SEND_1); (STATE_WAIT_1, enter_WAIT_1) ].

(** The result of [isButtonEvent] for inputs [inp]. *)
Definition button_edge (inp : Inputs) (m : Machine) : bool :=
  negb (in_button inp =? prevButton m) && (in_button inp =? HIGH).

(** The first test of [loopRx]. *)
Definition timed_out (inp : Inputs) (m : Machine) : bool :=
  negb (startMicros m =? 0)
  && (kRxTimeoutMicros <=? sub32 (in_micros inp) (startMicros m)).

(** The duration [loopRx] stores for an edge seen with inputs [inp]. *)
Definition rx_duration (inp : Inputs) (m : Machine) : Z :=
  wrap16 (sub32 (in_micros inp) (startMicros m)).

(** The machine [startRx_sized sz i] leaves when [memset] stays inside
    [sig]. *)
Definition rx_started (sz i : nat) (m : Machine) : Machine :=
  set_prevRx HIGH
    (set_startMicros 0
       (set_sig (zero_bytes (2 * slotBase i) (kSlotLen * sz) (sig m))
          (set_rxSize (Z.of_nat kSlotLen)
             (set_rxBuf (Some (slotBase i)) m)))).

(** The machine after [loopRx] has recorded an edge through the cursor [p]. *)
Definition rx_recorded (inp : Inputs) (p : nat) (m : Machine) : Machine :=
  set_startMicros (in_micros inp)
    (set_rxSize (wrap16 (rxSize m - 1))
       (set_rxBuf (Some (S p))
          (set_sig (<[p := rx_duration inp m]> (sig m))
             (set_prevRx (in_rx inp) m)))).

(** The machine [startTx i] leaves when the trimming loop yields [n]. *)
Definition tx_started (i n : nat) (m : Machine) : Machine :=
  set_txLen (Z.of_nat n)
    (set_txHigh false
       (set_txBuf (Some (slotBase i))
          (set_pins (<[kRedLedPin := HIGH]> (pins m)) m))).

(** The hardware calls [loopTx] makes for the duration [d]. *)
Definition tx_events (high : bool) (d : Z) : list event :=
  if d =? 0 then []
  else [if high then EvTone kTxPin kCarrierFreq else EvNoTone kTxPin;
        EvDelayMicroseconds d].

(** The machine after [loopTx] has stepped its cursor from [p]. *)
Definition tx_advanced (p : nat) (m : Machine) : Machine :=
  set_txHigh (negb (txHigh m))
    (set_txLen (wrap16 (txLen m - 1))
       (set_txBuf (Some (S p)) m)).

(** The second test of [loopWait]. *)
Definition wait_over (inp : Inputs) (m : Machine) : bool :=
  waitDelayMillis m <? sub32 (in_millis inp) (waitStartMillis m).

(** The machine [startWait delayMillis] leaves. *)
Definition wait_started (delayMillis : Z) (inp : Inputs) (m : Machine) : Machine :=
  set_waitDelayMillis delayMillis
    (set_waitStartMillis (in_millis inp)
       (set_pins (<[kRedLedPin := LOW]> (pins m)) m)).

(** ** Button levels *)

(** Calling [isButtonEvent] once per input sample; the results in call
    order and the machine after the last call. *)
Fixpoint buttonPolls (ins : list Inputs) (m : Machine)
  : option (list bool * Machine) :=
  match ins with
  | [] => Some ([], m)
  | inp :: ins' =>
      match isButtonEvent inp m with
      | None => None
      | Some (b, m1, _) =>
          match buttonPolls ins' m1 with
          | None => None
          | Some (bs, m2) => Some (b :: bs, m2)
          end
      end
  end.

(** A digital level, as [digitalRead] returns it. *)
Definition is_level (v : Z) : Prop := v = LOW \/ v = HIGH.

(** The level the button pin showed before poll [k]: the stored level for the
    first poll, the previous sample afterwards. *)
Definition level_before (m : Machine) (ins : list Inputs) (k : nat) : Z :=
  nth k (prevButton m :: map in_button ins) LOW.

(** ** Incoming signals *)

(** The level of the receiver pin after [k] edges, from the idle level
    HIGH that [startRx] assumes. *)
Definition rx_level (k : nat) : Z := if Nat.even k then HIGH else LOW.

(** One edge of the incoming signal: the times of the polls that still see
    the old level, then the time of the poll that sees the new one. *)
Record segment : Type := mkSegment {
  seg_idle : list Z;
  seg_edge : Z
}.

(** The clock readings of the polls that see the edges. *)
Definition edge_times (segs : list segment) : list Z := map seg_edge segs.

(** The polls of the [k]-th edge (counting from 0). *)
Definition segment_polls (k : nat) (s : segment) : list Inputs :=
  map (sample (rx_level k)) (seg_idle s) ++ [sample (rx_level (S k)) (seg_edge s)].

(** The polls of a train of edges, of which [k] came before. *)
Fixpoint capture_polls (k : nat) (segs : list segment) : list Inputs :=
  match segs with
  | [] => []
  | s :: segs' => segment_polls k s ++ capture_polls (S k) segs'
  end.

(** The polls are in chronological order after the clock reading [prev], the
    clock does not wrap, and an edge follows the edge before it (if any: 0
    stands for none) by less than the timeout. *)
Fixpoint well_timed (prev : Z) (segs : list segment) : Prop :=
  match segs with
  | [] => True
  | s :: segs' =>
      Forall (fun t => prev < t < seg_edge s) (seg_idle s) /\
      prev < seg_edge s < 2 ^ 32 /\
      (prev <> 0 -> seg_edge s - prev < 65536) /\
      well_timed (seg_edge s) segs'
  end.

(** The differences [t1 - t0, t2 - t1, ...] of a list of times after [t0]. *)
Fixpoint gaps (t0 : Z) (ts : list Z) : list Z :=
  match ts with
  | [] => []
  | t :: ts' => (t - t0) :: gaps t ts'
  end.

(** The time of the last edge of [segs], or [prev] when there is none. *)
Fixpoint last_edge (prev : Z) (segs : list segment) : Z :=
  match segs with
  | [] => prev
  | s :: segs' => last_edge (seg_edge s) segs'
  end.

(** ** Outgoing waves *)

(** [N] is the length of [l] without its trailing zeros. *)
Definition trimmed (l : list Z) (N : nat) : Prop :=
  (N <= length l)%nat /\
  (forall k, (N <= k < length l)%nat -> l !! k = Some 0) /\
  (N = O \/ exists v, l !! (N - 1)%nat = Some v /\ v <> 0).

(** The carrier as a wave: every blocking delay is one segment, with the
    polarity the last [tone] or [noTone] call left ([on] before any). *)
Fixpoint waveform (on : bool) (evs : list event) : list (bool * Z) :=
  match evs with
  | [] => []
  | EvTone _ _ :: evs' => waveform true evs'
  | EvNoTone _ :: evs' => waveform false evs'
  | EvDelayMicroseconds us :: evs' => (on, us) :: waveform on evs'
  | EvDigitalWrite _ _ :: evs' => waveform on evs'
  end.

(** The wave a list of stored durations stands for, [k] being the index of
    its first cell: cell [k] is a segment of its duration, with the carrier
    off for even [k] and on for odd [k]; a zero duration is no segment. *)
Fixpoint stored_wave (k : nat) (ds : list Z) : list (bool * Z) :=
  match ds with
  | [] => []
  | d :: ds' =>
      (if d =? 0 then [] else [(Nat.odd k, d)]) ++ stored_wave (S k) ds'
  end.

(** The hardware calls that leave the carrier alone. *)
Definition is_digitalWrite (e : event) : Prop :=
  match e with
  | EvDigitalWrite _ _ => True
  | _ => False
  end.

(** ** Invariants and cursors *)

(** The capture cursor in learning state [i]: it points into slot [i], the
    cells from it to the end of the slot are the remaining capacity, and a
    set time stamp means a recorded edge. *)
Definition rx_ok (i : nat) (m : Machine) : Prop :=
  exists p : nat,
    rxBuf m = Some p /\
    1 <= rxSize m <= Z.of_nat kSlotLen /\
    Z.of_nat p + rxSize m = Z.of_nat (slotBase i + kSlotLen) /\
    (startMicros m <> 0 -> rxSize m < Z.of_nat kSlotLen).

(** The invariant of the sketch that capture relies on. *)
Definition inv (m : Machine) : Prop :=
  length (sig m) = kSigLen /\
  (state m = STATE_LEARN_0 -> rx_ok 0 m) /\
  (state m = STATE_LEARN_1 -> rx_ok 1 m).

(** The capture cursor after [k] edges of learning state [i], the last one
    at clock reading [prev]. *)
Record rx_at (i k : nat) (prev : Z) (m : Machine) : Prop := mkRxAt {
  rx_at_state : state m = STATE_LEARN_0 + Z.of_nat i;
  rx_at_len : length (sig m) = kSigLen;
  rx_at_buf : rxBuf m = Some (slotBase i + k)%nat;
  rx_at_size : rxSize m = Z.of_nat kSlotLen - Z.of_nat k;
  rx_at_start : startMicros m = prev;
  rx_at_prev : prevRx m = rx_level k
}.

(** The playback cursor after [k] polls over slot [i] of the image [mem],
    trimmed to [N] cells, in state [st]. *)
Record tx_at (i N : nat) (mem : list Z) (st : Z) (k : nat) (m : Machine)
  : Prop := mkTxAt {
  tx_at_sig : sig m = mem;
  tx_at_state : state m = st;
  tx_at_buf : txBuf m = Some (slotBase i + k)%nat;
  tx_at_len : txLen m = Z.of_nat N - Z.of_nat k;
  tx_at_high : txHigh m = Nat.odd k
}.

(** The playback cursor [j] polls into an all-zero slot [i] that [startTx]
    trimmed to length 0: the 16-bit remaining length has wrapped. *)
Record tx_wrapped (i : nat) (mem : list Z) (st : Z) (j : nat) (m : Machine)
  : Prop := mkTxWrapped {
  tx_wrapped_sig : sig m = mem;
  tx_wrapped_state : state m = st;
  tx_wrapped_buf : txBuf m = Some (slotBase i + j)%nat;
  tx_wrapped_len : txLen m = wrap16 (- Z.of_nat j)
}.

(** ** Concrete runs *)

(** Press; teach a first pattern with edges at 1000 and 1500 us; teach a
    second one with edges at 90000 and 90100 us; press; send the first
    pattern; wait twelve hours; send the second pattern. *)
Definition run_to_WAIT_1 : list Inputs :=
  press ++
  [sample LOW 1000; sample HIGH 1500; sample HIGH 80000] ++
  [sample LOW 90000; sample HIGH 90100; sample HIGH 190000] ++
  press ++
  [tick 5; tick 5] ++
  [tick 43200006] ++
  [tick 43200007; tick 43200007].

(** The machine after [setup] and one call of [loop] per input sample. *)
Definition machine_after (ins : list Inputs) : Machine :=
  match polls loop ins booted with
  | Some (m, _) => m
  | None => booted
  end.

(** The machine with both patterns of [run_to_WAIT_1] learned. *)
Definition machine_taught : Machine :=
  machine_after
    (press ++ [sample LOW 1000; sample HIGH 1500; sample HIGH 80000]
       ++ [sample LOW 90000; sample HIGH 90100; sample HIGH 190000]).

(** A run that teaches an empty first pattern: the only edge is seen at the
    clock reading 65,536, whose low 16 bits are zero. *)
Definition run_to_empty_slot : list Inputs :=
  press ++
  [sample LOW 65536; sample LOW 140000] ++
  [sample LOW 150000; sample HIGH 150100; sample HIGH 250000].

(** The [k]-th of a train of edges 100 us apart, from 1000 us on. *)
Definition edge_train (n : nat) : list Inputs :=
  map (fun k : nat => sample (rx_level (S k)) (1000 + 100 * Z.of_nat k)) (seq 0 n).

(** What a run of 399 edges and then one more leaves: the state and the
    remaining capacity after 399 edges, and the state and the cursor after
    the 400th. *)
Definition overflow_summary : Z * Z * option (Z * option nat) :=
  let m := machine_after (press ++ edge_train 399) in
  (state m, rxSize m,
   match loop (sample (rx_level 400) 50000) m with
   | Some (_, m', _) => Some (state m', rxBuf m')
   | None => None
   end).

(** ** The state graph and the indicators *)

(** The button levels [ls], read after the level [prev], hold no step to
    HIGH: no call of [isButtonEvent] over them returns [true]. *)
Fixpoint quiet (prev : Z) (ls : list Z) : bool :=
  match ls with
  | [] => true
  | l :: ls' => negb (negb (l =? prev) && (l =? HIGH)) && quiet l ls'
  end.

(** The last level of [ls], or [prev] when there is none. *)
Fixpoint last_level (prev : Z) (ls : list Z) : Z :=
  match ls with
  | [] => prev
  | l :: ls' => last_level l ls'
  end.

(** The states one call of [loop] can leave for each state it is called
    in. *)
Definition next_states (s : Z) : list Z :=
  if s =? STATE_UNINITED then [STATE_UNINITED; STATE_LEARN_0]
  else if s =? STATE_LEARN_0 then [STATE_LEARN_0; STATE_LEARN_1; STATE_UNINITED]
  else if s =? STATE_LEARN_1 then [STATE_LEARN_1; STATE_INITED; STATE_UNINITED]
  else if s =? STATE_INITED then [STATE_INITED; STATE_SEND_0]
  else if s =? STATE_SEND_0 then [STATE_SEND_0; STATE_WAIT_0]
  else if s =? STATE_WAIT_0 then [STATE_WAIT_0; STATE_SEND_1; STATE_SEND_0]
  else if s =? STATE_SEND_1 then [STATE_SEND_1; STATE_WAIT_1]
  else if s =? STATE_WAIT_1 then [STATE_WAIT_1; 8; STATE_SEND_0]
  else [STATE_SEND_0].

(** The level of the red LED in each state. *)
Definition red_of (s : Z) : Z :=
  if (s =? STATE_LEARN_0) || (s =? STATE_LEARN_1) || (s =? STATE_SEND_0)
     || (s =? STATE_SEND_1)
  then HIGH else LOW.

(** The level of the green LED in each state. *)
Definition green_of (s : Z) : Z :=
  if (s =? STATE_UNINITED) || (s =? STATE_LEARN_0) then LOW else HIGH.

(** The two LEDs show the state, and the state is an enumerator or 8. *)
Definition leds_ok (m : Machine) : Prop :=
  0 <= state m <= 8 /\
  pins m !! kRedLedPin = Some (red_of (state m)) /\
  pins m !! kGreenLedPin = Some (green_of (state m)).

(** ** Whole patterns *)

(** The wave of durations [ds] played with the carrier alternately off and
    on, starting with [on]. *)
Fixpoint alternating (on : bool) (ds : list Z) : list (bool * Z) :=
  match ds with
  | [] => []
  | d :: ds' => (on, d) :: alternating (negb on) ds'
  end.

(** * Proofs *)

(** ** Setters and the monad *)

Lemma set_prevButton_same m : set_prevButton (prevButton m) m = m.
Proof. by destruct m. Qed.

Ltac unfold_cmd :=
  cbv [bind ret get modify emit ask fault digitalRead digitalWrite micros
       millis tone noTone delayMicroseconds pinMode].

(** Case analysis on the first integer comparison of the goal. *)
Ltac case_eqb :=
  match goal with
  | |- context [ ?a =? ?b ] => destruct (Z.eqb_spec a b)
  end.

(** ** The button edge detector *)

Lemma isButtonEvent_step inp m :
  isButtonEvent inp m =
  Some (negb (in_button inp =? prevButton m) && (in_button inp =? HIGH),
        set_prevButton (in_button inp) m, []).
Proof.
  unfold isButtonEvent. unfold_cmd. cbn.
  destruct (Z.eqb_spec (in_button inp) (prevButton m)) as [->|Hne]; cbn.
  - by rewrite set_prevButton_same.
  - done.
Qed.

Lemma buttonPolls_snoc ins inp m bs m1 :
  buttonPolls ins m = Some (bs, m1) ->
  buttonPolls (ins ++ [inp]) m =
  Some (bs ++ [negb (in_button inp =? prevButton m1) && (in_button inp =? HIGH)],
        set_prevButton (in_button inp) m1).
Proof.
  revert m bs m1.
  induction ins as [|i0 ins IH]; intros m bs m1; cbn [buttonPolls app].
  - intros [= <- <-]. by rewrite isButtonEvent_step.
  - rewrite isButtonEvent_step.
    destruct (buttonPolls ins _) as [[bs' m2]|] eqn:E; [|done].
    intros [= <- <-]. by rewrite (IH _ _ _ E).
Qed.

Lemma level_before_cons m inp ins k :
  level_before (set_prevButton (in_button inp) m) ins k =
  level_before m (inp :: ins) (S k).
Proof. reflexivity. Qed.

(** C6. For every sequence of button levels, [isButtonEvent] returns [true]
    on poll [k] exactly when the level read by poll [k] is HIGH and the level
    before it (the previous sample, or the stored level for the first poll)
    was LOW; so it is [false] on a release and while a level is held.  After
    poll [k] the stored previous level is the level poll [k] read. *)
Theorem isButtonEvent_once_per_press (ins : list Inputs) (m : Machine)
  (Hins : Forall (fun inp => is_level (in_button inp)) ins)
  (Hprev : is_level (prevButton m)) :
  exists bs : list bool,
    (exists m', buttonPolls ins m = Some (bs, m')) /\
    length bs = length ins /\
    forall k : nat, (k < length ins)%nat ->
      (bs !! k = Some true <->
         level_before m ins k = LOW /\ level_before m ins (S k) = HIGH) /\
      (exists bsk mk,
         buttonPolls (take (S k) ins) m = Some (bsk, mk) /\
         prevButton mk = level_before m ins (S k)).
Proof.
  revert m Hprev.
  induction Hins as [|inp ins Hinp Hins IH]; intros m Hprev.
  - exists []. split; [by exists m|]. split; [done|].
    intros k Hk. cbn in Hk. lia.
  - destruct (IH (set_prevButton (in_button inp) m) Hinp) as (bs & [m' Hrun] & Hlen & Hk).
    exists (negb (in_button inp =? prevButton m) && (in_button inp =? HIGH) :: bs).
    split; [|split].
    + exists m'. cbn [buttonPolls]. by rewrite isButtonEvent_step, Hrun.
    + cbn. by rewrite Hlen.
    + intros [|k] Hlt.
      * split.
        -- cbn. unfold level_before; cbn.
           destruct Hinp as [-> | ->], Hprev as [-> | ->]; cbn;
             (split; [intros [=] || intros _ | intros [? ?]]);
             try done; try (split; done).
        -- exists [negb (in_button inp =? prevButton m) && (in_button inp =? HIGH)],
             (set_prevButton (in_button inp) m).
           split; [|done]. cbn [take buttonPolls].
           by rewrite isButtonEvent_step.
      * cbn in Hlt. destruct (Hk k ltac:(lia)) as [Hiff (bsk & mk & Hrunk & Hpk)].
        rewrite !level_before_cons in Hiff. rewrite level_before_cons in Hpk.
        split; [exact Hiff|].
        exists (negb (in_button inp =? prevButton m) && (in_button inp =? HIGH) :: bsk), mk.
        split; [|exact Hpk].
        change (take (S (S k)) (inp :: ins)) with (inp :: take (S k) ins).
        cbn [buttonPolls]. by rewrite isButtonEvent_step, Hrunk.
Qed.

Lemma isButtonEvent_once_per_press_witness :
  exists bs m',
    buttonPolls [tick 0; mkInputs LOW HIGH 0 1; mkInputs LOW HIGH 0 2;
                 tick 3; tick 4; mkInputs LOW HIGH 0 5] booted = Some (bs, m') /\
    bs !! 3%nat = Some true /\ ~ (bs !! 4%nat = Some true) /\
    ~ (bs !! 5%nat = Some true).
Proof.
  destruct (isButtonEvent_once_per_press
              [tick 0; mkInputs LOW HIGH 0 1; mkInputs LOW HIGH 0 2;
               tick 3; tick 4; mkInputs LOW HIGH 0 5] booted)
    as (bs & [m' Hrun] & _ & Hk).
  - repeat constructor; (by left) || (by right).
  - by right.
  - exists bs, m'. split; [exact Hrun|].
    split; [|split].
    + apply (Hk 3%nat); [cbn; lia|]. by split.
    + intros H. apply (Hk 4%nat) in H; [|cbn; lia]. by destruct H.
    + intros H. apply (Hk 5%nat) in H; [|cbn; lia]. by destruct H.
Defined.

(** ** The transition function *)

Lemma setState_same inp m : setState (state m) inp m = Some (tt, m, []).
Proof. unfold setState. unfold_cmd. by rewrite Z.eqb_refl. Qed.

Lemma setState_ne s inp m :
  s <> state m -> setState s inp m = switch_state s inp (set_state s m).
Proof.
  intros Hne. unfold setState. unfold_cmd.
  apply Z.eqb_neq in Hne. rewrite Hne. cbn.
  by destruct (switch_state s inp (set_state s m)) as [[[[] m2] e2]|].
Qed.

Lemma switch_state_unenumerated s :
  ~ enumerated s -> switch_state s = ret tt.
Proof.
  unfold enumerated, switch_state, STATE_UNINITED, STATE_LEARN_0,
    STATE_LEARN_1, STATE_INITED, STATE_SEND_0, STATE_WAIT_0, STATE_SEND_1,
    STATE_WAIT_1.
  intros Hs.
  repeat (case_eqb; [lia|]). done.
Qed.

Lemma entry_actions_keys s :
  enumerated s <-> In s (map fst entry_actions).
Proof.
  unfold enumerated. cbn.
  unfold STATE_UNINITED, STATE_LEARN_0, STATE_LEARN_1, STATE_INITED,
    STATE_SEND_0, STATE_WAIT_0, STATE_SEND_1, STATE_WAIT_1.
  lia.
Qed.

Lemma switch_state_entry s a :
  In (s, a) entry_actions -> switch_state s = a.
Proof.
  cbn. intros H.
  repeat (destruct H as [[= <- <-]|H]; [reflexivity|]). done.
Qed.

(** ** Memory: [memset] and the slots *)

Lemma zero_byte_pair (a : nat) (mem : list Z) :
  zero_byte (S (2 * a)) (zero_byte (2 * a) mem) =
  if decide (a < length mem)%nat then <[a := 0]> mem else mem.
Proof.
  unfold zero_byte.
  replace ((2 * a) / 2)%nat with a
    by (symmetry; rewrite Nat.mul_comm; apply Nat.div_mul; lia).
  replace (S (2 * a) / 2)%nat with a
    by (apply (Nat.div_unique _ 2 a 1); lia).
  replace (Nat.even (2 * a)) with true
    by (symmetry; apply Nat.even_spec; by exists a).
  replace (Nat.even (S (2 * a))) with false
    by (symmetry; rewrite Nat.even_succ, <- Nat.negb_even;
        apply negb_false_iff, Nat.even_spec; by exists a).
  destruct (mem !! a) as [v|] eqn:Hv.
  - apply lookup_lt_Some in Hv as Hlt.
    rewrite list_lookup_insert_eq by done.
    rewrite decide_True by done.
    rewrite list_insert_insert_eq. f_equal.
    rewrite (Z.div_mod v 256) at 1 by lia.
    replace (256 * (v / 256) + v mod 256 - v mod 256) with (v / 256 * 256) by lia.
    apply Z.mod_mul. lia.
  - rewrite Hv. apply lookup_ge_None in Hv.
    by rewrite decide_False by lia.
Qed.

(** Clearing [2 * n] bytes from the first byte of cell [a] clears the cells
    [a .. a + n - 1] and nothing else. *)
Lemma zero_bytes_lookup (n a : nat) (mem : list Z) (j : nat) :
  zero_bytes (2 * a) (2 * n) mem !! j =
  if decide (a <= j < a + n /\ j < length mem)%nat then Some 0 else mem !! j.
Proof.
  revert a mem. induction n as [|n IH]; intros a mem.
  - cbn. rewrite decide_False by lia. done.
  - replace (2 * S n)%nat with (S (S (2 * n))) by lia.
    cbn [zero_bytes]. rewrite zero_byte_pair.
    replace (S (S (2 * a))) with (2 * S a)%nat by lia.
    rewrite IH.
    destruct (decide (a < length mem)%nat) as [Ha|Ha].
    + rewrite length_insert.
      destruct (decide (j = a)) as [->|Hja].
      * rewrite decide_False by lia. rewrite decide_True by lia.
        by apply list_lookup_insert_eq.
      * rewrite list_lookup_insert_ne by done.
        destruct (decide (S a <= j < S a + n /\ j < length mem)%nat).
        -- by rewrite decide_True by lia.
        -- by rewrite decide_False by lia.
    + destruct (decide (S a <= j < S a + n /\ j < length mem)%nat); [lia|].
      by rewrite decide_False by lia.
Qed.

Lemma zero_bytes_length (n b : nat) (mem : list Z) :
  length (zero_bytes b n mem) = length mem.
Proof.
  revert b mem. induction n as [|n IH]; intros b mem; cbn; [done|].
  rewrite IH. unfold zero_byte.
  destruct (mem !! (b / 2)%nat); [apply length_insert|done].
Qed.

Lemma slot_lookup (i k : nat) (mem : list Z) :
  (k < kSlotLen)%nat -> slot i mem !! k = mem !! (slotBase i + k)%nat.
Proof.
  intros Hk. unfold slot. rewrite lookup_take_lt by done. apply lookup_drop.
Qed.

Lemma slot_length (i : nat) (mem : list Z) :
  (slotBase i + kSlotLen <= length mem)%nat -> length (slot i mem) = kSlotLen.
Proof. intros H. unfold slot. rewrite length_take, length_drop. lia. Qed.

Lemma slot_insert_in (i k : nat) (d : Z) (mem : list Z) :
  (k < kSlotLen)%nat ->
  slot i (<[(slotBase i + k)%nat := d]> mem) = <[k := d]> (slot i mem).
Proof.
  intros Hk. apply list_eq. intros j.
  destruct (decide (j < kSlotLen)%nat) as [Hj|Hj].
  - rewrite slot_lookup by done.
    destruct (decide (k = j)) as [->|Hkj].
    + destruct (decide (slotBase i + j < length mem)%nat) as [Hlen|Hlen].
      * rewrite !list_lookup_insert_eq; [done| |done].
        unfold slot. rewrite length_take, length_drop. lia.
      * rewrite !list_insert_ge; [by rewrite slot_lookup| |lia].
        unfold slot. rewrite length_take, length_drop. lia.
    + rewrite !list_lookup_insert_ne by lia. by rewrite slot_lookup.
  - rewrite !(lookup_ge_None_2 _ j); [done| |].
    + rewrite length_insert. unfold slot. rewrite length_take. lia.
    + unfold slot. rewrite length_take. lia.
Qed.

Lemma slot_insert_out (i j : nat) (d : Z) (mem : list Z) :
  ~ (slotBase i <= j < slotBase i + kSlotLen)%nat ->
  slot i (<[j := d]> mem) = slot i mem.
Proof.
  intros Hj. apply list_eq. intros k.
  destruct (decide (k < kSlotLen)%nat) as [Hk|Hk].
  - rewrite !slot_lookup by done. apply list_lookup_insert_ne. lia.
  - rewrite !(lookup_ge_None_2 _ k); [done| |];
      unfold slot; rewrite length_take; lia.
Qed.

(** ** Closed forms of the start functions *)

#[local] Arguments kSlotLen : simpl never.
#[local] Arguments kSigLen : simpl never.
#[local] Arguments slotBase : simpl never.
#[local] Arguments zero_bytes : simpl never.
#[local] Arguments trimTail : simpl never.
#[local] Arguments setState : simpl never.
#[local] Arguments switch_state : simpl never.
#[local] Arguments startRx : simpl never.
#[local] Arguments startTx : simpl never.
#[local] Arguments isButtonEvent : simpl never.

Lemma startRx_sized_eq sz i inp m :
  startRx_sized sz i inp m =
  if decide (2 * slotBase i + kSlotLen * sz <= 2 * length (sig m))%nat
  then Some (tt, rx_started sz i m, [])
  else None.
Proof.
  unfold startRx_sized, memset0. unfold_cmd. cbn.
  rewrite Nat2Z.id.
  destruct (decide _); reflexivity.
Qed.

Lemma startRx_eq i inp m :
  (i < 2)%nat -> length (sig m) = kSigLen ->
  startRx i inp m = Some (tt, rx_started 2 i m, []).
Proof.
  intros Hi Hlen. unfold startRx. rewrite startRx_sized_eq.
  rewrite decide_True; [done|].
  rewrite Hlen. unfold slotBase, kSlotLen, kSigLen. lia.
Qed.

Lemma startTx_eq i inp m :
  startTx i inp m =
  match trimTail (sig m) (slotBase i) kSlotLen with
  | Some n => Some (tt, tx_started i n m, [EvDigitalWrite kRedLedPin HIGH])
  | None => None
  end.
Proof.
  unfold startTx. unfold_cmd. cbn. rewrite Nat2Z.id.
  destruct (trimTail _ _ _); reflexivity.
Qed.

Lemma startWait_eq d inp m :
  startWait d inp m =
  Some (tt, wait_started d inp m, [EvDigitalWrite kRedLedPin LOW]).
Proof. reflexivity. Qed.

(** The trimming loop: it stays inside the slot, stops at the last non-zero
    cell, and skips only zero cells. *)
Lemma trimTail_S mem base len :
  trimTail mem base (S len) =
  match mem !! (base + len)%nat with
  | None => None
  | Some v => if v =? 0 then trimTail mem base len else Some (S len)
  end.
Proof. reflexivity. Qed.

Lemma trimTail_total mem base len :
  (base + len <= length mem)%nat -> exists n, trimTail mem base len = Some n.
Proof.
  induction len as [|len IH]; intros Hlen; [by exists O|].
  rewrite trimTail_S.
  destruct (lookup_lt_is_Some_2 mem (base + len)%nat ltac:(lia)) as [v ->].
  destruct (v =? 0); [apply IH; lia|eauto].
Qed.

Lemma trimTail_spec mem base len n :
  trimTail mem base len = Some n ->
  (n <= len)%nat /\
  (forall k, (n <= k < len)%nat -> mem !! (base + k)%nat = Some 0) /\
  (n = O \/ exists v, mem !! (base + (n - 1))%nat = Some v /\ v <> 0).
Proof.
  revert n. induction len as [|len IH]; intros n.
  - intros [= <-]. split; [lia|]. split; [intros; lia|by left].
  - rewrite trimTail_S. destruct (mem !! (base + len)%nat) as [v|] eqn:Hv; [|done].
    destruct (Z.eqb_spec v 0) as [->|Hnz].
    + intros Hn. destruct (IH _ Hn) as (Hle & Hz & Hlast).
      split; [lia|]. split; [|done].
      intros k Hk. destruct (decide (k = len)) as [->|]; [done|].
      apply Hz. lia.
    + intros [= <-]. split; [lia|]. split; [intros; lia|].
      right. exists v. by replace (S len - 1)%nat with len by lia.
Qed.

(** ** Zero-initialisation of a slot *)

Lemma rx_started_slot i m :
  (i < 2)%nat -> length (sig m) = kSigLen ->
  slot i (sig (rx_started 2 i m)) = replicate kSlotLen 0.
Proof.
  intros Hi Hlen. apply list_eq. intros k. cbn [rx_started sig set_prevRx
    set_startMicros set_sig].
  destruct (decide (k < kSlotLen)%nat) as [Hk|Hk].
  - rewrite slot_lookup by done.
    rewrite (Nat.mul_comm kSlotLen 2), zero_bytes_lookup.
    rewrite decide_True.
    + symmetry. by apply lookup_replicate_2.
    + rewrite Hlen. unfold slotBase, kSlotLen, kSigLen in *. lia.
  - rewrite !(lookup_ge_None_2 _ k); [done| |].
    + rewrite length_replicate. lia.
    + unfold slot. rewrite length_take. lia.
Qed.

Lemma rx_started_outside i m j :
  ~ (slotBase i <= j < slotBase i + kSlotLen)%nat ->
  sig (rx_started 2 i m) !! j = sig m !! j.
Proof.
  intros Hj. cbn [rx_started sig set_prevRx set_startMicros set_sig].
  rewrite (Nat.mul_comm kSlotLen 2), zero_bytes_lookup.
  by rewrite decide_False by lia.
Qed.

Lemma rx_started_other_slot i i' m :
  i <> i' -> slot i' (sig (rx_started 2 i m)) = slot i' (sig m).
Proof.
  intros Hne. apply list_eq. intros k.
  destruct (decide (k < kSlotLen)%nat) as [Hk|Hk].
  - rewrite !slot_lookup by done. apply rx_started_outside.
    unfold slotBase, kSlotLen in *. nia.
  - rewrite !(lookup_ge_None_2 _ k); [done| |];
      unfold slot; rewrite length_take; lia.
Qed.

Lemma rx_started_length sz i m :
  length (sig (rx_started sz i m)) = length (sig m).
Proof. apply zero_bytes_length. Qed.

(** C9. On the two-byte pointers of the ATmega328, [startRx i] for a slot
    index [i] of 0 or 1 returns with every one of the 400 cells of slot [i]
    zero and leaves every cell outside slot [i] (the other slot in
    particular) as it was.  Besides the slot it assigns the four capture
    variables: the cursor points at the first cell of the slot with all 400
    cells remaining, the time stamp is 0 and the previous level HIGH; no
    other variable and no output changes. *)
Theorem startRx_zeroes_exactly_slot (i : nat) (inp : Inputs) (m : Machine)
  (Hi : (i < 2)%nat) (Hlen : length (sig m) = kSigLen) :
  exists m',
    startRx i inp m = Some (tt, m', []) /\
    slot i (sig m') = replicate kSlotLen 0 /\
    (forall k, (k < kSlotLen)%nat -> sig m' !! (slotBase i + k)%nat = Some 0) /\
    (forall j, ~ (slotBase i <= j < slotBase i + kSlotLen)%nat ->
               sig m' !! j = sig m !! j) /\
    slot (1 - i) (sig m') = slot (1 - i) (sig m) /\
    length (sig m') = length (sig m) /\
    rxBuf m' = Some (slotBase i) /\ rxSize m' = Z.of_nat kSlotLen /\
    startMicros m' = 0 /\ prevRx m' = HIGH /\
    state m' = state m /\ prevButton m' = prevButton m /\
    txBuf m' = txBuf m /\ txLen m' = txLen m /\ txHigh m' = txHigh m /\
    waitStartMillis m' = waitStartMillis m /\
    waitDelayMillis m' = waitDelayMillis m /\ pins m' = pins m.
Proof.
  exists (rx_started 2 i m).
  split; [by apply startRx_eq|].
  split; [by apply rx_started_slot|].
  split.
  { intros k Hk. rewrite <- slot_lookup by done.
    rewrite rx_started_slot by done. by apply lookup_replicate_2. }
  split; [intros j Hj; by apply rx_started_outside|].
  split; [apply rx_started_other_slot; lia|].
  split; [apply rx_started_length|].
  repeat split.
Qed.

Lemma startRx_zeroes_exactly_slot_witness :
  exists m',
    startRx 1 (mkInputs LOW HIGH 0 0) booted = Some (tt, m', []) /\
    slot 1 (sig m') = replicate kSlotLen 0 /\
    slot 0 (sig m') = slot 0 (sig booted).
Proof.
  destruct (startRx_zeroes_exactly_slot 1 (mkInputs LOW HIGH 0 0) booted)
    as (m' & Hrun & Hz & _ & _ & Ho & _); [lia|reflexivity|].
  exists m'. split; [exact Hrun|]. split; [exact Hz|exact Ho].
Defined.

(** X10.  The byte count [rxSize * sizeof(rxBuf)] is the size of a slot only
    where a pointer is as wide as a cell: with four-byte pointers the same call
    clears slot 1 along with slot 0, and for slot 1 it runs off [sig]. *)
Remark startRx_four_byte_pointers (inp : Inputs) (m : Machine) :
  length (sig m) = kSigLen ->
  (exists m', startRx_sized 4 0 inp m = Some (tt, m', []) /\
              slot 1 (sig m') = replicate kSlotLen 0) /\
  startRx_sized 4 1 inp m = None.
Proof.
  intros Hlen. split.
  - exists (rx_started 4 0 m). split.
    + rewrite startRx_sized_eq, decide_True; [done|].
      rewrite Hlen. unfold slotBase, kSlotLen, kSigLen. lia.
    + apply list_eq. intros k. cbn [rx_started sig set_prevRx
        set_startMicros set_sig].
      destruct (decide (k < kSlotLen)%nat) as [Hk|Hk].
      * rewrite slot_lookup by done.
        replace (kSlotLen * 4)%nat with (2 * (2 * kSlotLen))%nat by lia.
        rewrite zero_bytes_lookup, decide_True.
        -- symmetry. by apply lookup_replicate_2.
        -- rewrite Hlen. unfold slotBase, kSlotLen, kSigLen in *. lia.
      * rewrite !(lookup_ge_None_2 _ k); [done| |].
        -- rewrite length_replicate. lia.
        -- unfold slot. rewrite length_take. lia.
  - rewrite startRx_sized_eq, decide_False; [done|].
    rewrite Hlen. unfold slotBase, kSlotLen, kSigLen. lia.
Qed.

(** ** Runs of the sketch *)

Lemma polls_reachable ins m m' evs :
  reachable m -> polls loop ins m = Some (m', evs) -> reachable m'.
Proof.
  revert m m' evs. induction ins as [|inp ins IH]; intros m m' evs Hm; cbn [polls].
  - by intros [= <-].
  - destruct (loop inp m) as [[[[] m1] e1]|] eqn:Hstep; [|done].
    destruct (polls loop ins m1) as [[m2 e2]|] eqn:Hrest; [|done].
    intros [= <- <-]. eapply IH; [|done]. by eapply reach_loop.
Qed.

Lemma machine_after_reachable ins : reachable (machine_after ins).
Proof.
  unfold machine_after.
  destruct (polls loop ins booted) as [[m e]|] eqn:Hrun; [|constructor].
  eapply polls_reachable; [constructor|done].
Qed.

(** ** Entry actions *)

Lemma setState_WAIT_0 inp m :
  state m <> STATE_WAIT_0 ->
  setState STATE_WAIT_0 inp m =
  Some (tt,
        wait_started kDelay1Millis inp
          (set_pins (<[LED_BUILTIN := HIGH]> (pins m)) (set_state STATE_WAIT_0 m)),
        [EvDigitalWrite LED_BUILTIN HIGH; EvDigitalWrite kRedLedPin LOW]).
Proof. intros Hne. by rewrite setState_ne by done. Qed.

Lemma setState_WAIT_1 inp m :
  state m <> STATE_WAIT_1 ->
  setState STATE_WAIT_1 inp m =
  Some (tt,
        wait_started (sub32 kCycleMillis kDelay1Millis) inp
          (set_pins (<[LED_BUILTIN := LOW]> (pins m)) (set_state STATE_WAIT_1 m)),
        [EvDigitalWrite LED_BUILTIN LOW; EvDigitalWrite kRedLedPin LOW]).
Proof. intros Hne. by rewrite setState_ne by done. Qed.

(** C7. The constant expressions [12ul * 60 * 60 * 1000] and
    [24ul * 60 * 60 * 1000] evaluate in 32-bit unsigned arithmetic to the
    exact products 43,200,000 and 86,400,000.  Entering WAIT_0 arms the wait
    timer for 43,200,000 ms and entering WAIT_1 for
    86,400,000 - 43,200,000 = 43,200,000 ms, from the clock reading of the
    call. *)
Theorem wait_timer_delays (s : Z) (inp : Inputs) (m : Machine)
  (Hs : s = STATE_WAIT_0 \/ s = STATE_WAIT_1) (Hne : state m <> s) :
  kDelay1Millis = 12 * 60 * 60 * 1000 /\ kDelay1Millis = 43200000 /\
  kCycleMillis = 24 * 60 * 60 * 1000 /\ kCycleMillis = 86400000 /\
  exists m' evs,
    setState s inp m = Some (tt, m', evs) /\
    state m' = s /\
    waitStartMillis m' = in_millis inp /\
    waitDelayMillis m' =
      (if s =? STATE_WAIT_0 then 43200000 else 86400000 - 43200000) /\
    waitDelayMillis m' = 43200000.
Proof.
  do 4 (split; [reflexivity|]).
  destruct Hs as [-> | ->].
  - rewrite setState_WAIT_0 by done. eexists _, _. split; [reflexivity|]. done.
  - rewrite setState_WAIT_1 by done. eexists _, _. split; [reflexivity|]. done.
Qed.

Lemma wait_timer_delays_witness :
  exists m' evs,
    setState STATE_WAIT_0 (tick 7) (set_state STATE_SEND_0 booted)
      = Some (tt, m', evs) /\
    waitStartMillis m' = 7 /\ waitDelayMillis m' = 43200000.
Proof.
  destruct (wait_timer_delays STATE_WAIT_0 (tick 7) (set_state STATE_SEND_0 booted))
    as (_ & _ & _ & _ & m' & evs & Hrun & _ & Hstart & _ & Hdelay).
  - by left.
  - discriminate.
  - exists m', evs. split; [exact Hrun|]. split; [exact Hstart|exact Hdelay].
Defined.

Lemma digitalWrite_bind_events {A : Type} pin lvl (k : M A) inp m r m' evs :
  (digitalWrite pin lvl >> k) inp m = Some (r, m', evs) ->
  exists evs', evs = EvDigitalWrite pin lvl :: evs'.
Proof.
  unfold_cmd. cbn.
  destruct (k inp _) as [[[? ?] ?]|]; [|done].
  intros [= <- <- <-]. eauto.
Qed.

(** Every [case] body of [setState] starts with a [digitalWrite], so an entry
    action that returns has driven a pin. *)
Lemma entry_action_emits s a inp m m' evs :
  In (s, a) entry_actions -> a inp m = Some (tt, m', evs) -> evs <> [].
Proof.
  cbn. intros H.
  repeat (destruct H as [[= <- <-]|H]); try done;
    unfold enter_UNINITED, enter_LEARN_0, enter_LEARN_1, enter_INITED,
      enter_SEND_0, enter_WAIT_0, enter_SEND_1, enter_WAIT_1, startTx;
    intros Hrun; apply digitalWrite_bind_events in Hrun as [evs' ->]; done.
Qed.

Lemma entry_actions_functional s a b :
  In (s, a) entry_actions -> In (s, b) entry_actions -> a = b.
Proof.
  intros Ha Hb. apply switch_state_entry in Ha, Hb. congruence.
Qed.

Lemma digitalWrite_bind {A : Type} pin lvl (k : M A) inp m :
  (digitalWrite pin lvl >> k) inp m =
  match k inp (set_pins (<[pin := lvl]> (pins m)) m) with
  | Some (r, m', e) => Some (r, m', EvDigitalWrite pin lvl :: e)
  | None => None
  end.
Proof. reflexivity. Qed.

(** Whatever [setState] runs, it leaves [state] at its argument and [sig]
    at its length. *)
Lemma setState_frame s inp m m' evs :
  setState s inp m = Some (tt, m', evs) ->
  state m' = s /\ length (sig m') = length (sig m).
Proof.
  destruct (decide (s = state m)) as [->|Hne].
  { rewrite setState_same. by intros [= <- <-]. }
  rewrite setState_ne by done. unfold switch_state.
  repeat case_eqb; subst.
  - by intros [= <- <-].
  - unfold enter_LEARN_0, startRx. rewrite !digitalWrite_bind, startRx_sized_eq.
    destruct (decide _); [|done]. intros [= <- <-].
    split; [done|by rewrite rx_started_length].
  - unfold enter_LEARN_1, startRx. rewrite !digitalWrite_bind, startRx_sized_eq.
    destruct (decide _); [|done]. intros [= <- <-].
    split; [done|by rewrite rx_started_length].
  - by intros [= <- <-].
  - unfold enter_SEND_0. rewrite startTx_eq.
    destruct (trimTail _ _ _); [|done]. by intros [= <- <-].
  - by intros [= <- <-].
  - unfold enter_SEND_1. rewrite startTx_eq.
    destruct (trimTail _ _ _); [|done]. by intros [= <- <-].
  - by intros [= <- <-].
  - by intros [= <- <-].
Qed.

(** With [sig] at its declared size no entry action faults. *)
Lemma setState_total s inp m :
  length (sig m) = kSigLen -> exists m' evs, setState s inp m = Some (tt, m', evs).
Proof.
  intros Hlen.
  destruct (decide (s = state m)) as [->|Hne].
  { rewrite setState_same. eauto. }
  rewrite setState_ne by done. unfold switch_state.
  repeat case_eqb; subst; try (eexists _, _; reflexivity).
  - unfold enter_LEARN_0. rewrite !digitalWrite_bind, startRx_eq by (done || lia).
    eauto.
  - unfold enter_LEARN_1. rewrite !digitalWrite_bind, startRx_eq by (done || lia).
    eauto.
  - unfold enter_SEND_0. rewrite startTx_eq.
    destruct (trimTail_total (sig (set_state STATE_SEND_0 m)) (slotBase 0) kSlotLen)
      as [len ->]; [|eauto].
    cbn [sig set_state]. rewrite Hlen. unfold slotBase, kSlotLen, kSigLen. lia.
  - unfold enter_SEND_1. rewrite startTx_eq.
    destruct (trimTail_total (sig (set_state STATE_SEND_1 m)) (slotBase 1) kSlotLen)
      as [len ->]; [|eauto].
    cbn [sig set_state]. rewrite Hlen. unfold slotBase, kSlotLen, kSigLen. lia.
Qed.

(** C8, as amended.  [setState s] with [s] the current state returns at
    once: no variable changes and no hardware call is made.  With [s]
    different from the current state it stores [s] in [state] and then: for
    an enumerated [s] it runs the body of the one [case] labelled [s]
    (which drives at least one pin and leaves [state] at [s]); for a value
    outside the enumeration it runs nothing. *)
Theorem setState_effect (s : Z) (inp : Inputs) (m : Machine) :
  (s = state m -> setState s inp m = Some (tt, m, [])) /\
  (s <> state m ->
     (forall m' evs, setState s inp m = Some (tt, m', evs) -> state m' = s) /\
     (enumerated s ->
        exists a, In (s, a) entry_actions /\
                  (forall b, In (s, b) entry_actions -> b = a) /\
                  setState s inp m = a inp (set_state s m) /\
                  (forall m' evs, a inp (set_state s m) = Some (tt, m', evs) ->
                                  evs <> [])) /\
     (~ enumerated s -> setState s inp m = Some (tt, set_state s m, []))).
Proof.
  split.
  - intros ->. apply setState_same.
  - intros Hne. split; [|split].
    + intros m' evs Hrun. by apply setState_frame in Hrun as [? _].
    + intros Hs. apply entry_actions_keys in Hs.
      apply in_map_iff in Hs as ([s' a] & Hfst & Hin). cbn in Hfst. subst s'.
      exists a. split; [done|]. split.
      * intros b Hb. by apply (entry_actions_functional s).
      * split.
        -- rewrite setState_ne by done. by rewrite (switch_state_entry s a).
        -- intros m' evs. by apply entry_action_emits with (s := s).
    + intros Hs. rewrite setState_ne by done.
      by rewrite switch_state_unenumerated.
Qed.

(** The instance of C8 for the call [setState(STATE_WAIT_0)] made in
    [STATE_SEND_0] and the repeated call [setState(STATE_SEND_0)]. *)
Lemma setState_effect_witness :
  setState STATE_SEND_0 (tick 0) (set_state STATE_SEND_0 booted) =
    Some (tt, set_state STATE_SEND_0 booted, []) /\
  setState STATE_WAIT_0 (tick 0) (set_state STATE_SEND_0 booted) =
    enter_WAIT_0 (tick 0) (set_state STATE_WAIT_0 (set_state STATE_SEND_0 booted)).
Proof.
  split.
  - destruct (setState_effect STATE_SEND_0 (tick 0) (set_state STATE_SEND_0 booted))
      as [H _].
    apply H. reflexivity.
  - destruct (setState_effect STATE_WAIT_0 (tick 0) (set_state STATE_SEND_0 booted))
      as [_ H].
    destruct H as (_ & H & _); [discriminate|].
    destruct H as (a & Hin & _ & Heq & _); [unfold enumerated, STATE_WAIT_0; lia|].
    rewrite Heq. by rewrite <- (switch_state_entry _ _ Hin).
Defined.

(** C8 as stated fails for the value 8, which [loopWait] passes from
    [STATE_WAIT_1]: [state] is updated, no variable else changes, no pin is
    driven, and no [case] carries that label. *)
Lemma setState_unenumerated_runs_nothing :
  state (machine_after run_to_WAIT_1) = STATE_WAIT_1 /\
  wrap8 (state (machine_after run_to_WAIT_1) + 1) = 8 /\
  setState 8 (tick 86400008) (machine_after run_to_WAIT_1) =
    Some (tt, set_state 8 (machine_after run_to_WAIT_1), []) /\
  ~ (exists a, In (8, a) entry_actions).
Proof.
  split; [by vm_compute|]. split; [by vm_compute|]. split.
  - rewrite setState_ne by (by vm_compute). by rewrite switch_state_unenumerated
      by (unfold enumerated; lia).
  - intros [a Ha]. cbn in Ha.
    repeat (destruct Ha as [[=]|Ha]). done.
Qed.

(** ** Capture *)

Lemma result_eta {A : Type} (r : option (A * Machine * list event)) :
  match r with
  | Some (a, m, e) => Some (a, m, e)
  | None => None
  end = r.
Proof. by destruct r as [[[? ?] ?]|]. Qed.

Lemma loopRx_eq inp m :
  loopRx inp m =
  if timed_out inp m then setState (wrap8 (state m + 1)) inp m
  else if in_rx inp =? prevRx m then Some (tt, m, [])
  else match rxBuf m with
       | None => None
       | Some p =>
           if decide (p < length (sig m))%nat then
             if wrap16 (rxSize m - 1) =? 0
             then setState STATE_UNINITED inp (rx_recorded inp p m)
             else Some (tt, rx_recorded inp p m, [])
           else None
       end.
Proof.
  unfold loopRx, timed_out, store16, ptr_incr. unfold_cmd. cbn.
  destruct (negb (startMicros m =? 0) && _); [by rewrite !result_eta|].
  destruct (in_rx inp =? prevRx m); [done|].
  destruct (rxBuf m) as [p|]; [|done]. cbn.
  destruct (decide (p < length (sig m))%nat); [|done]. cbn.
  destruct (wrap16 (rxSize m - 1) =? 0); [by rewrite !result_eta|done].
Qed.

Lemma rx_started_ok i m : rx_ok i (rx_started 2 i m).
Proof.
  exists (slotBase i). cbn. unfold kSlotLen. repeat split; try lia; done.
Qed.

Lemma setState_LEARN_0 inp m :
  state m <> STATE_LEARN_0 -> length (sig m) = kSigLen ->
  setState STATE_LEARN_0 inp m =
  Some (tt,
        rx_started 2 0
          (set_pins (<[kGreenLedPin := LOW]> (<[kRedLedPin := HIGH]> (pins m)))
             (set_state STATE_LEARN_0 m)),
        [EvDigitalWrite kRedLedPin HIGH; EvDigitalWrite kGreenLedPin LOW]).
Proof.
  intros Hne Hlen. rewrite setState_ne by done.
  change (switch_state STATE_LEARN_0) with enter_LEARN_0.
  unfold enter_LEARN_0. rewrite !digitalWrite_bind, startRx_eq by (done || lia).
  done.
Qed.

Lemma setState_LEARN_1 inp m :
  state m <> STATE_LEARN_1 -> length (sig m) = kSigLen ->
  setState STATE_LEARN_1 inp m =
  Some (tt,
        rx_started 2 1
          (set_pins (<[kGreenLedPin := HIGH]> (<[kRedLedPin := HIGH]> (pins m)))
             (set_state STATE_LEARN_1 m)),
        [EvDigitalWrite kRedLedPin HIGH; EvDigitalWrite kGreenLedPin HIGH]).
Proof.
  intros Hne Hlen. rewrite setState_ne by done.
  change (switch_state STATE_LEARN_1) with enter_LEARN_1.
  unfold enter_LEARN_1. rewrite !digitalWrite_bind, startRx_eq by (done || lia).
  done.
Qed.

Lemma setState_inv s inp m m' evs :
  s <> STATE_LEARN_0 -> s <> STATE_LEARN_1 ->
  length (sig m) = kSigLen ->
  setState s inp m = Some (tt, m', evs) -> inv m'.
Proof.
  intros H0 H1 Hlen Hrun. apply setState_frame in Hrun as [Hs Hl].
  split; [congruence|]. split; intros ?; congruence.
Qed.

Lemma setState_inv_any s inp m m' evs :
  inv m -> setState s inp m = Some (tt, m', evs) -> inv m'.
Proof.
  intros Hinv Hrun.
  destruct (decide (s = state m)) as [->|Hne].
  { rewrite setState_same in Hrun. by injection Hrun as <- <-. }
  destruct Hinv as (Hlen & _).
  destruct (decide (s = STATE_LEARN_0)) as [->|H0].
  { rewrite setState_LEARN_0 in Hrun by done. injection Hrun as <- <-.
    split; [by rewrite rx_started_length|].
    split; [intros _; apply rx_started_ok|done]. }
  destruct (decide (s = STATE_LEARN_1)) as [->|H1].
  { rewrite setState_LEARN_1 in Hrun by done. injection Hrun as <- <-.
    split; [by rewrite rx_started_length|].
    split; [done|intros _; apply rx_started_ok]. }
  by eapply setState_inv.
Qed.

(** ** Closed forms of the poll handlers *)

Lemma loopUninitialized_eq inp m :
  loopUninitialized inp m =
  if button_edge inp m
  then setState STATE_LEARN_0 inp (set_prevButton (in_button inp) m)
  else Some (tt, set_prevButton (in_button inp) m, []).
Proof.
  unfold loopUninitialized, bind. rewrite isButtonEvent_step. fold (button_edge inp m).
  destruct (button_edge inp m); [apply result_eta|done].
Qed.

Lemma loopInitialized_eq inp m :
  loopInitialized inp m =
  if button_edge inp m
  then setState STATE_SEND_0 inp (set_prevButton (in_button inp) m)
  else Some (tt, set_prevButton (in_button inp) m, []).
Proof.
  unfold loopInitialized, bind. rewrite isButtonEvent_step. fold (button_edge inp m).
  destruct (button_edge inp m); [apply result_eta|done].
Qed.

Lemma loopWait_eq inp m :
  loopWait inp m =
  if button_edge inp m
  then setState STATE_SEND_0 inp (set_prevButton (in_button inp) m)
  else if wait_over inp m
  then setState (wrap8 (state m + 1)) inp
         (set_waitStartMillis 0 (set_prevButton (in_button inp) m))
  else Some (tt, set_prevButton (in_button inp) m, []).
Proof.
  unfold loopWait, bind at 1. rewrite isButtonEvent_step. fold (button_edge inp m).
  destruct (button_edge inp m); [apply result_eta|].
  unfold_cmd. cbn. fold (wait_over inp m).
  destruct (wait_over inp m); [by rewrite !result_eta|done].
Qed.

Lemma loopTx_eq inp m :
  loopTx inp m =
  match txBuf m with
  | None => None
  | Some p =>
      match sig m !! p with
      | None => None
      | Some d =>
          if wrap16 (txLen m - 1) =? 0 then
            match setState (wrap8 (state m + 1)) inp
                    (set_txBuf None (tx_advanced p m)) with
            | Some (r, m', e) =>
                Some (r, m', tx_events (txHigh m) d ++ EvNoTone kTxPin :: e)
            | None => None
            end
          else Some (tt, tx_advanced p m, tx_events (txHigh m) d)
      end
  end.
Proof.
  unfold loopTx, load16, ptr_incr, tx_events, tx_advanced. unfold_cmd. cbn.
  destruct (txBuf m) as [p|]; [|done]. cbn.
  destruct (sig m !! p) as [d|]; [|done]. cbn.
  destruct (d =? 0); cbn;
    (destruct (wrap16 (txLen m - 1) =? 0); [|destruct (txHigh m); done]); cbn;
    rewrite ?result_eta;
    destruct (txHigh m); cbn; rewrite ?result_eta;
    by destruct (setState _ inp _) as [[[[] m'] e]|].
Qed.

Lemma loop_eq inp m :
  loop inp m =
  (if state m =? STATE_UNINITED then loopUninitialized
   else if (state m =? STATE_LEARN_0) || (state m =? STATE_LEARN_1) then loopRx
   else if state m =? STATE_INITED then loopInitialized
   else if (state m =? STATE_SEND_0) || (state m =? STATE_SEND_1) then loopTx
   else if (state m =? STATE_WAIT_0) || (state m =? STATE_WAIT_1) then loopWait
   else setState STATE_SEND_0) inp m.
Proof. unfold loop, bind, get. cbn. apply result_eta. Qed.

(** ** The invariant holds in every reachable machine *)

Lemma inv_ext m1 m2 :
  state m1 = state m2 -> sig m1 = sig m2 -> rxBuf m1 = rxBuf m2 ->
  rxSize m1 = rxSize m2 -> startMicros m1 = startMicros m2 ->
  inv m2 -> inv m1.
Proof.
  intros Hs Hsig Hb Hz Ht (Hlen & H0 & H1). unfold inv, rx_ok in *.
  rewrite Hs, Hsig, Hb, Hz, Ht. done.
Qed.

Lemma inv_booted : inv booted.
Proof. split; [reflexivity|]. split; intros [=]. Qed.

Lemma wrap16_pred (z : Z) :
  1 <= z <= Z.of_nat kSlotLen -> wrap16 (z - 1) = z - 1.
Proof. intros Hz. unfold wrap16. apply Z.mod_small. unfold kSlotLen in Hz. lia. Qed.

Lemma rx_recorded_ok i inp p m :
  rx_ok i m -> rxBuf m = Some p -> rxSize m <> 1 -> rx_ok i (rx_recorded inp p m).
Proof.
  intros (p' & Hp & Hsz & Hsum & Hst) Hb Hne.
  assert (p' = p) as -> by congruence.
  exists (S p). cbn. rewrite wrap16_pred by done.
  repeat split; try lia.
Qed.

Lemma rx_ok_in_slot i m p :
  rx_ok i m -> rxBuf m = Some p ->
  (slotBase i <= p < slotBase i + kSlotLen)%nat.
Proof.
  intros (p' & Hp & Hsz & Hsum & _) Hb.
  assert (p' = p) as -> by congruence. lia.
Qed.

Lemma learning_rx_ok i m :
  inv m -> (i < 2)%nat -> state m = STATE_LEARN_0 + Z.of_nat i -> rx_ok i m.
Proof.
  intros (_ & H0 & H1) Hi Hs.
  destruct i as [|[|i]]; [by apply H0|by apply H1|lia].
Qed.

Lemma loop_inv inp m m' evs :
  inv m -> loop inp m = Some (tt, m', evs) -> inv m'.
Proof.
  intros Hinv. rewrite loop_eq.
  assert (Hbtn : inv (set_prevButton (in_button inp) m))
    by (by apply inv_ext with m).
  destruct (Z.eqb_spec (state m) STATE_UNINITED) as [Hs|_].
  { rewrite loopUninitialized_eq.
    destruct (button_edge inp m); [by apply setState_inv_any|].
    by intros [= <- <-]. }
  destruct ((state m =? STATE_LEARN_0) || (state m =? STATE_LEARN_1)) eqn:Hlearn.
  { assert (exists i, (i < 2)%nat /\ state m = STATE_LEARN_0 + Z.of_nat i)
      as (i & Hi & Hs).
    { apply orb_true_iff in Hlearn as [H|H]; apply Z.eqb_eq in H;
        [exists 0%nat|exists 1%nat]; rewrite H; split; (lia || done). }
    pose proof (learning_rx_ok i m Hinv Hi Hs) as Hok.
    rewrite loopRx_eq.
    destruct (timed_out inp m); [by apply setState_inv_any|].
    destruct (in_rx inp =? prevRx m); [by intros [= <- <-]|].
    destruct (rxBuf m) as [p|] eqn:Hp; [|done].
    destruct (decide (p < length (sig m))%nat) as [Hlt|]; [|done].
    destruct Hinv as (Hlen & H0 & H1).
    destruct (Z.eqb_spec (wrap16 (rxSize m - 1)) 0) as [Hz|Hz].
    - apply setState_inv; [done|done|].
      cbn. by rewrite length_insert.
    - intros [= <- <-].
      assert (rxSize m <> 1) as Hne by (intros Heq; rewrite Heq in Hz; done).
      split; [cbn; by rewrite length_insert|].
      split; intros Hst; cbn in Hst.
      + apply rx_recorded_ok; [by apply H0|done|done].
      + apply rx_recorded_ok; [by apply H1|done|done]. }
  destruct (Z.eqb_spec (state m) STATE_INITED) as [Hs|_].
  { rewrite loopInitialized_eq.
    destruct (button_edge inp m); [by apply setState_inv_any|].
    by intros [= <- <-]. }
  destruct ((state m =? STATE_SEND_0) || (state m =? STATE_SEND_1)) eqn:Hsend.
  { rewrite loopTx_eq.
    destruct (txBuf m) as [p|]; [|done].
    destruct (sig m !! p) as [d|]; [|done].
    destruct (wrap16 (txLen m - 1) =? 0).
    - destruct (setState _ inp _) as [[[[] m2] e2]|] eqn:Hset; [|done].
      intros [= <- <-]. eapply setState_inv_any; [|exact Hset].
      by apply inv_ext with m.
    - intros [= <- <-]. by apply inv_ext with m. }
  destruct ((state m =? STATE_WAIT_0) || (state m =? STATE_WAIT_1)).
  { rewrite loopWait_eq.
    destruct (button_edge inp m); [by apply setState_inv_any|].
    destruct (wait_over inp m); [|by intros [= <- <-]].
    apply setState_inv_any. by apply inv_ext with m. }
  by apply setState_inv_any.
Qed.

Lemma reachable_inv m : reachable m -> inv m.
Proof.
  induction 1 as [|m inp m' evs _ IH Hstep]; [apply inv_booted|].
  by eapply loop_inv.
Qed.

Lemma setState_UNINITED inp m :
  state m <> STATE_UNINITED ->
  setState STATE_UNINITED inp m =
  Some (tt,
        set_pins (<[kGreenLedPin := LOW]> (<[kRedLedPin := LOW]> (pins m)))
          (set_state STATE_UNINITED m),
        [EvDigitalWrite kRedLedPin LOW; EvDigitalWrite kGreenLedPin LOW]).
Proof. intros Hne. by rewrite setState_ne by done. Qed.

Lemma setState_INITED inp m :
  state m <> STATE_INITED ->
  setState STATE_INITED inp m =
  Some (tt,
        set_pins (<[kGreenLedPin := HIGH]> (<[kRedLedPin := LOW]> (pins m)))
          (set_state STATE_INITED m),
        [EvDigitalWrite kRedLedPin LOW; EvDigitalWrite kGreenLedPin HIGH]).
Proof. intros Hne. by rewrite setState_ne by done. Qed.

(** Leaving [STATE_UNINITED] means entering [STATE_LEARN_0] with slot 0
    cleared. *)
Lemma loop_from_UNINITED inp m m' evs :
  state m = STATE_UNINITED -> length (sig m) = kSigLen ->
  loop inp m = Some (tt, m', evs) ->
  state m' = STATE_UNINITED \/
  (state m' = STATE_LEARN_0 /\ slot 0 (sig m') = replicate kSlotLen 0).
Proof.
  intros Hs Hlen. rewrite loop_eq, Hs. cbn [Z.eqb STATE_UNINITED].
  rewrite loopUninitialized_eq.
  destruct (button_edge inp m).
  - rewrite setState_LEARN_0 by (cbn; rewrite ?Hs; done).
    intros [= <- <-]. right. split; [done|].
    by apply rx_started_slot; [lia|].
  - intros [= <- <-]. by left.
Qed.

(** C3. In every machine the sketch can reach in a learning state, a poll of
    [loopRx] returns, and it stores a duration only in its third case, through
    the cursor, which points into the active slot: the one cell written is
    one of the slot's 400.  The poll that uses up the last cell (remaining
    capacity 1 before, 0 after: the 400th entry) puts the state back to
    UNINITIALIZED, from where the sketch can only enter LEARN_0 with slot 0
    cleared; LEARN_1 is in turn entered with slot 1 cleared. *)
Theorem capture_stays_in_slot (i : nat) (inp : Inputs) (m : Machine)
  (Hreach : reachable m) (Hi : (i < 2)%nat)
  (Hs : state m = STATE_LEARN_0 + Z.of_nat i) :
  exists m' evs,
    loopRx inp m = Some (tt, m', evs) /\
    ((timed_out inp m = true /\ state m' = state m + 1 /\
      slot i (sig m') = slot i (sig m) /\
      (i = 0%nat -> slot 1 (sig m') = replicate kSlotLen 0))
     \/
     (timed_out inp m = false /\ in_rx inp = prevRx m /\ m' = m /\ evs = [])
     \/
     (timed_out inp m = false /\ in_rx inp <> prevRx m /\
      exists p : nat,
        rxBuf m = Some p /\
        (slotBase i <= p < slotBase i + kSlotLen)%nat /\
        Z.of_nat p = Z.of_nat (slotBase i + kSlotLen) - rxSize m /\
        sig m' = <[p := rx_duration inp m]> (sig m) /\
        rxSize m' = rxSize m - 1 /\
        (rxSize m = 1 ->
           state m' = STATE_UNINITED /\
           forall inp2 m2 evs2, loop inp2 m' = Some (tt, m2, evs2) ->
             state m2 = STATE_UNINITED \/
             (state m2 = STATE_LEARN_0 /\ slot 0 (sig m2) = replicate kSlotLen 0)) /\
        (rxSize m <> 1 -> state m' = state m /\ rxBuf m' = Some (S p)))).
Proof.
  pose proof (reachable_inv m Hreach) as Hinv.
  pose proof (learning_rx_ok i m Hinv Hi Hs) as Hok.
  destruct Hinv as (Hlen & _).
  rewrite loopRx_eq.
  destruct (timed_out inp m) eqn:Hto.
  { destruct i as [|[|i]]; [| |lia].
    - replace (wrap8 (state m + 1)) with STATE_LEARN_1 by (rewrite Hs; done).
      rewrite setState_LEARN_1 by (rewrite ?Hs; done).
      eexists _, _. split; [reflexivity|]. left.
      split; [done|]. split; [by rewrite Hs|]. split.
      + by rewrite rx_started_other_slot by done.
      + intros _. by apply rx_started_slot; [lia|].
    - replace (wrap8 (state m + 1)) with STATE_INITED by (rewrite Hs; done).
      rewrite setState_INITED by (rewrite ?Hs; done).
      eexists _, _. split; [reflexivity|]. left.
      split; [done|]. split; [by rewrite Hs|]. split; [done|]. intros [=]. }
  destruct (Z.eqb_spec (in_rx inp) (prevRx m)) as [Heq|Hneq].
  { eexists _, _. split; [reflexivity|]. right. left. done. }
  destruct Hok as (p & Hp & Hsz & Hsum & Hst). rewrite Hp.
  assert (slotBase i <= p < slotBase i + kSlotLen)%nat as Hin by lia.
  rewrite decide_True
    by (rewrite Hlen; unfold slotBase, kSlotLen, kSigLen in *; lia).
  rewrite wrap16_pred by done.
  destruct (Z.eqb_spec (rxSize m - 1) 0) as [Hz|Hz].
  - rewrite setState_UNINITED
      by (cbn; rewrite Hs; unfold STATE_LEARN_0, STATE_UNINITED; lia).
    eexists _, _. split; [reflexivity|]. right. right.
    split; [done|]. split; [done|]. exists p.
    split; [done|]. split; [done|]. split; [lia|]. split; [done|].
    split; [cbn; by rewrite wrap16_pred|]. split; [|lia].
    intros _. split; [done|].
    intros inp2 m2 evs2. apply loop_from_UNINITED; [done|].
    cbn. by rewrite length_insert.
  - eexists _, _. split; [reflexivity|]. right. right.
    split; [done|]. split; [done|]. exists p.
    split; [done|]. split; [done|]. split; [lia|]. split; [done|].
    split; [cbn; by rewrite wrap16_pred|]. split; [lia|done].
Qed.

(** C4, as amended.  In every reachable machine in a learning state whose
    time stamp is set whenever an edge has been recorded (the time stamp is
    the clock reading at the last recorded edge, and 0 is also the value that
    means "none"), a poll of [loopRx] returns, and it advances the state to
    the next one exactly when an edge has been recorded and the time since
    the last recorded edge, modulo 2^32, is at least 65,536 us.  With no
    edge recorded the state stays as it is. *)
Theorem capture_completion (i : nat) (inp : Inputs) (m : Machine)
  (Hreach : reachable m) (Hi : (i < 2)%nat)
  (Hs : state m = STATE_LEARN_0 + Z.of_nat i)
  (Hclock : rxSize m < Z.of_nat kSlotLen -> startMicros m <> 0) :
  kRxTimeoutMicros = 65536 /\
  exists m' evs,
    loopRx inp m = Some (tt, m', evs) /\
    (state m' = state m + 1 <->
       rxSize m < Z.of_nat kSlotLen /\
       65536 <= sub32 (in_micros inp) (startMicros m)) /\
    (rxSize m = Z.of_nat kSlotLen -> state m' = state m).
Proof.
  split; [reflexivity|].
  pose proof (reachable_inv m Hreach) as Hinv.
  destruct (learning_rx_ok i m Hinv Hi Hs) as (p & Hp & Hsz & Hsum & Hst).
  destruct Hinv as (Hlen & _).
  assert (Hadv : forall m1 : Machine, state m1 = state m -> state m1 <> state m + 1)
    by (intros m1 ->; lia).
  assert (Hrec : exists m' evs,
    (if decide (p < length (sig m))%nat then
       if wrap16 (rxSize m - 1) =? 0
       then setState STATE_UNINITED inp (rx_recorded inp p m)
       else Some (tt, rx_recorded inp p m, [])
     else None) = Some (tt, m', evs) /\
    state m' <> state m + 1 /\
    (rxSize m = Z.of_nat kSlotLen -> state m' = state m)).
  { rewrite decide_True
      by (rewrite Hlen; unfold slotBase, kSlotLen, kSigLen in *; lia).
    rewrite wrap16_pred by done.
    destruct (Z.eqb_spec (rxSize m - 1) 0) as [Hz|Hz].
    - rewrite setState_UNINITED
        by (cbn; rewrite Hs; unfold STATE_LEARN_0, STATE_UNINITED; lia).
      eexists _, _. split; [reflexivity|]. cbn. rewrite Hs.
      unfold STATE_UNINITED, STATE_LEARN_0, kSlotLen. lia.
    - eexists _, _. split; [reflexivity|]. cbn. lia. }
  rewrite loopRx_eq. unfold timed_out. change kRxTimeoutMicros with 65536.
  destruct (Z.eqb_spec (startMicros m) 0) as [Hzero|Hset]; cbn [negb andb].
  - assert (rxSize m = Z.of_nat kSlotLen) as Hfull by lia.
    destruct (Z.eqb_spec (in_rx inp) (prevRx m)) as [Heq|Hneq].
    + eexists _, _. split; [reflexivity|]. split; [|done]. lia.
    + rewrite Hp. destruct Hrec as (m' & evs & -> & Hne & Hsame).
      exists m', evs. split; [done|]. split; [|done]. lia.
  - specialize (Hst Hset).
    destruct (Z.leb_spec 65536 (sub32 (in_micros inp) (startMicros m))) as [Hto|Hto].
    + destruct (setState_total (wrap8 (state m + 1)) inp m Hlen) as (m' & evs & Hrun).
      exists m', evs. split; [done|].
      apply setState_frame in Hrun as [Hst' _].
      assert (wrap8 (state m + 1) = state m + 1) as Hw
        by (rewrite Hs; by destruct i as [|[|i]]; [| |lia]).
      split; [|lia]. rewrite Hst', Hw. done.
    + destruct (Z.eqb_spec (in_rx inp) (prevRx m)) as [Heq|Hneq].
      * eexists _, _. split; [reflexivity|]. split; [|done]. lia.
      * rewrite Hp. destruct Hrec as (m' & evs & -> & Hne & Hsame).
        exists m', evs. split; [done|]. split; [|done]. lia.
Qed.

(** C4 as stated fails at the boundary: one edge recorded at 1000 us, then
    a poll at 66536 us.  The elapsed time is 65,536 us, which does not exceed
    the timeout, and the state advances to LEARN_1. *)
Lemma capture_completes_at_exactly_the_timeout :
  state (machine_after (press ++ [sample LOW 1000])) = STATE_LEARN_0 /\
  rxSize (machine_after (press ++ [sample LOW 1000])) = 399 /\
  sub32 (in_micros (sample LOW 66536))
        (startMicros (machine_after (press ++ [sample LOW 1000]))) = 65536 /\
  ~ (65536 < sub32 (in_micros (sample LOW 66536))
                   (startMicros (machine_after (press ++ [sample LOW 1000])))) /\
  exists m' evs,
    loopRx (sample LOW 66536) (machine_after (press ++ [sample LOW 1000]))
      = Some (tt, m', evs) /\
    state m' = state (machine_after (press ++ [sample LOW 1000])) + 1.
Proof.
  split; [by vm_compute|]. split; [by vm_compute|].
  split; [by vm_compute|]. split; [by vm_compute|].
  eexists _, _. split; [vm_compute; reflexivity|]. by vm_compute.
Qed.

(** The time stamp doubles as the mark for "no edge yet": an edge recorded
    at clock reading 0 uses up a cell and leaves the time stamp at 0, and a
    poll 70,000 us later does not complete the capture. *)
Remark edge_at_clock_reading_zero :
  exists m1 m2,
    loopRx (sample LOW 0) (machine_after press) = Some (tt, m1, []) /\
    rxSize m1 = 399 /\ startMicros m1 = 0 /\
    loopRx (sample LOW 70000) m1 = Some (tt, m2, []) /\
    state m2 = STATE_LEARN_0.
Proof.
  eexists _, _. split; [vm_compute; reflexivity|].
  split; [reflexivity|]. split; [reflexivity|].
  split; [vm_compute; reflexivity|]. reflexivity.
Qed.

Lemma capture_completion_witness :
  exists m' evs,
    loopRx (sample LOW 70000) (machine_after (press ++ [sample LOW 1000]))
      = Some (tt, m', evs) /\
    state m' = STATE_LEARN_1.
Proof.
  destruct (capture_completion 0 (sample LOW 70000)
              (machine_after (press ++ [sample LOW 1000])))
    as (_ & m' & evs & Hrun & Hiff & _).
  - apply machine_after_reachable.
  - lia.
  - by vm_compute.
  - intros _. by vm_compute.
  - exists m', evs. split; [done|].
    replace STATE_LEARN_1
      with (state (machine_after (press ++ [sample LOW 1000])) + 1)
      by (by vm_compute).
    apply Hiff. split; by vm_compute.
Defined.

Lemma capture_stays_in_slot_witness :
  exists m' evs,
    loopRx (sample LOW 1000) (machine_after press) = Some (tt, m', evs) /\
    sig m' = <[0%nat := 1000]> (sig (machine_after press)).
Proof.
  destruct (capture_stays_in_slot 0 (sample LOW 1000) (machine_after press))
    as (m' & evs & Hrun & Hcases).
  - apply machine_after_reachable.
  - lia.
  - by vm_compute.
  - exists m', evs. split; [done|].
    destruct Hcases as [(Hto & _)|[(_ & Hrx & _)|(_ & _ & p & Hp & _ & _ & Hsig & _)]].
    + vm_compute in Hto. discriminate Hto.
    + vm_compute in Hrx. discriminate Hrx.
    + rewrite Hsig. vm_compute in Hp. injection Hp as <-. reflexivity.
Defined.

(** ** Capturing a signal *)

Lemma polls_app c ins1 ins2 m :
  polls c (ins1 ++ ins2) m =
  match polls c ins1 m with
  | None => None
  | Some (m1, e1) =>
      match polls c ins2 m1 with
      | None => None
      | Some (m2, e2) => Some (m2, e1 ++ e2)
      end
  end.
Proof.
  revert m. induction ins1 as [|inp ins1 IH]; intros m; cbn [polls app].
  - by destruct (polls c ins2 m) as [[m2 e2]|].
  - destruct (c inp m) as [[[[] m1] e1]|]; [|done].
    rewrite IH. destruct (polls c ins1 m1) as [[m2 e2]|]; [|done].
    destruct (polls c ins2 m2) as [[m3 e3]|]; [|done].
    by rewrite app_assoc.
Qed.

Lemma sub32_small (t prev : Z) :
  0 <= prev -> prev <= t < 2 ^ 32 -> sub32 t prev = t - prev.
Proof. intros H0 Ht. unfold sub32, wrap32. apply Z.mod_small. lia. Qed.

Lemma not_timed_out t lvl prev m :
  startMicros m = prev ->
  prev = 0 \/ (0 < prev /\ prev <= t < 2 ^ 32 /\ t - prev < 65536) ->
  timed_out (sample lvl t) m = false.
Proof.
  intros Hst Ht. unfold timed_out. rewrite Hst. cbn [in_micros sample].
  destruct Ht as [->|(H0 & Ht & Hgap)]; [done|].
  rewrite sub32_small by lia. change kRxTimeoutMicros with 65536.
  apply andb_false_iff. right. apply Z.leb_gt. lia.
Qed.

Lemma rx_level_S k : rx_level (S k) <> rx_level k.
Proof.
  unfold rx_level. rewrite Nat.even_succ, <- Nat.negb_even.
  by destruct (Nat.even k).
Qed.

Lemma loopRx_idle_poll i k prev t m :
  rx_at i k prev m ->
  prev = 0 \/ (0 < prev /\ prev <= t < 2 ^ 32 /\ t - prev < 65536) ->
  loopRx (sample (rx_level k) t) m = Some (tt, m, []).
Proof.
  intros [Hs Hlen Hb Hz Hst Hp] Ht. rewrite loopRx_eq.
  rewrite (not_timed_out t _ prev) by done.
  cbn [in_rx sample]. by rewrite Hp, Z.eqb_refl.
Qed.

Lemma loopRx_idle_polls i k prev ts m :
  rx_at i k prev m ->
  Forall (fun t => prev = 0 \/ (0 < prev /\ prev <= t < 2 ^ 32 /\ t - prev < 65536)) ts ->
  polls loopRx (map (sample (rx_level k)) ts) m = Some (m, []).
Proof.
  intros Hat. induction 1 as [|t ts Ht _ IH]; [done|].
  cbn [map polls]. rewrite (loopRx_idle_poll i k prev) by done.
  by rewrite IH.
Qed.

Lemma loopRx_edge_poll i k prev t m :
  rx_at i k prev m -> (S k < kSlotLen)%nat -> (i < 2)%nat ->
  prev = 0 \/ (0 < prev /\ prev <= t < 2 ^ 32 /\ t - prev < 65536) ->
  exists m',
    loopRx (sample (rx_level (S k)) t) m = Some (tt, m', []) /\
    rx_at i (S k) t m' /\
    sig m' = <[(slotBase i + k)%nat := wrap16 (sub32 t prev)]> (sig m).
Proof.
  intros [Hs Hlen Hb Hz Hst Hp] Hk Hi Ht. rewrite loopRx_eq.
  rewrite (not_timed_out t _ prev) by done.
  cbn [in_rx sample]. rewrite Hp.
  destruct (Z.eqb_spec (rx_level (S k)) (rx_level k)) as [Heq|_];
    [by apply rx_level_S in Heq|].
  rewrite Hb, decide_True
    by (rewrite Hlen; unfold slotBase, kSlotLen, kSigLen in *; lia).
  rewrite wrap16_pred by (unfold kSlotLen in *; lia).
  destruct (Z.eqb_spec (rxSize m - 1) 0) as [Hz0|_];
    [unfold kSlotLen in *; lia|].
  eexists. split; [reflexivity|]. split.
  - split; cbn -[wrap16]; try done.
    + by rewrite length_insert.
    + f_equal. lia.
    + rewrite wrap16_pred by (unfold kSlotLen in *; lia). lia.
  - cbn. unfold rx_duration. cbn. by rewrite Hst.
Qed.

Lemma capture_segment i k prev s m :
  rx_at i k prev m -> (S k < kSlotLen)%nat -> (i < 2)%nat -> 0 <= prev ->
  Forall (fun t => prev < t < seg_edge s) (seg_idle s) ->
  prev < seg_edge s < 2 ^ 32 ->
  (prev <> 0 -> seg_edge s - prev < 65536) ->
  exists m',
    polls loopRx (segment_polls k s) m = Some (m', []) /\
    rx_at i (S k) (seg_edge s) m' /\
    sig m' = <[(slotBase i + k)%nat := wrap16 (sub32 (seg_edge s) prev)]> (sig m).
Proof.
  intros Hat Hk Hi H0 Hidle Hedge Hgap.
  unfold segment_polls. rewrite polls_app.
  rewrite (loopRx_idle_polls i k prev).
  - destruct (loopRx_edge_poll i k prev (seg_edge s) m) as (m' & Hrun & Hat' & Hsig);
      try done.
    { destruct (decide (prev = 0)); [by left|right; lia]. }
    exists m'. cbn [polls]. by rewrite Hrun.
  - done.
  - eapply Forall_impl; [exact Hidle|]. cbn. intros t Ht.
    destruct (decide (prev = 0)); [by left|right; lia].
Qed.

Lemma capture_segments i segs : forall k prev m,
  (i < 2)%nat -> 0 < prev ->
  rx_at i k prev m -> well_timed prev segs ->
  (k + length segs < kSlotLen)%nat ->
  exists m',
    polls loopRx (capture_polls k segs) m = Some (m', []) /\
    rx_at i (k + length segs) (last_edge prev segs) m' /\
    slot i (sig m') =
      take k (slot i (sig m)) ++ gaps prev (edge_times segs)
        ++ drop (k + length segs) (slot i (sig m)).
Proof.
  induction segs as [|s segs IH]; intros k prev m Hi Hprev Hat Hwt Hcap.
  - exists m. cbn [capture_polls polls length last_edge edge_times map gaps app].
    rewrite Nat.add_0_r. split; [done|]. split; [done|].
    by rewrite take_drop.
  - cbn [well_timed] in Hwt. destruct Hwt as (Hidle & Hedge & Hgap & Hwt).
    cbn [length] in Hcap.
    destruct (capture_segment i k prev s m) as (m1 & Hrun1 & Hat1 & Hsig1);
      try done; try lia.
    destruct (IH (S k) (seg_edge s) m1) as (m2 & Hrun2 & Hat2 & Hslot2);
      try done; try lia.
    exists m2. cbn [capture_polls]. rewrite polls_app, Hrun1, Hrun2.
    split; [done|].
    replace (k + length (s :: segs))%nat with (S k + length segs)%nat
      by (cbn [length]; lia).
    split; [done|].
    rewrite Hslot2, Hsig1. cbn [edge_times map gaps].
    rewrite slot_insert_in by lia.
    assert (k < length (slot i (sig m)))%nat as Hkl.
    { rewrite slot_length; [lia|]. rewrite (rx_at_len _ _ _ _ Hat).
      unfold slotBase, kSlotLen, kSigLen. lia. }
    rewrite (take_S_r _ k (wrap16 (sub32 (seg_edge s) prev)))
      by (by apply list_lookup_insert_eq).
    rewrite take_insert_ge by lia.
    rewrite drop_insert_lt by lia.
    rewrite sub32_small by lia.
    unfold wrap16. rewrite Z.mod_small by lia.
    by rewrite <- app_assoc.
Qed.

Lemma loopRx_final_poll i k prev lvl T m :
  rx_at i k prev m -> (i < 2)%nat -> 0 < prev ->
  prev + 65536 <= T < 2 ^ 32 ->
  exists m' evs,
    loopRx (sample lvl T) m = Some (tt, m', evs) /\
    state m' = state m + 1 /\
    slot i (sig m') = slot i (sig m).
Proof.
  intros [Hs Hlen Hb Hz Hst Hp] Hi Hprev HT. rewrite loopRx_eq.
  assert (timed_out (sample lvl T) m = true) as ->.
  { unfold timed_out. rewrite Hst. cbn [in_micros sample].
    rewrite sub32_small by lia. change kRxTimeoutMicros with 65536.
    apply andb_true_iff. split; [|apply Z.leb_le; lia].
    apply negb_true_iff, Z.eqb_neq. lia. }
  destruct i as [|[|i]]; [| |lia].
  - replace (wrap8 (state m + 1)) with STATE_LEARN_1 by (rewrite Hs; done).
    rewrite setState_LEARN_1 by (rewrite ?Hs; done).
    eexists _, _. split; [reflexivity|]. split; [by rewrite Hs|].
    by rewrite rx_started_other_slot by done.
  - replace (wrap8 (state m + 1)) with STATE_INITED by (rewrite Hs; done).
    rewrite setState_INITED by (rewrite ?Hs; done).
    eexists _, _. split; [reflexivity|]. split; [by rewrite Hs|done].
Qed.

Lemma rx_started_at i m :
  length (sig m) = kSigLen -> state m = STATE_LEARN_0 + Z.of_nat i ->
  rx_at i 0 0 (rx_started 2 i m).
Proof.
  intros Hlen Hs.
  split; cbn; rewrite ?zero_bytes_length, ?Nat.add_0_r; (done || lia).
Qed.

Lemma last_edge_bounds segs : forall prev,
  well_timed prev segs -> prev <= last_edge prev segs /\
  (segs <> [] -> last_edge prev segs < 2 ^ 32).
Proof.
  induction segs as [|s segs IH]; intros prev Hwt; cbn [last_edge].
  - split; [lia|done].
  - cbn [well_timed] in Hwt. destruct Hwt as (_ & Hedge & _ & Hwt).
    destruct (IH _ Hwt) as [Hle Hlt]. split; [lia|]. intros _.
    destruct segs as [|s' segs]; [cbn; lia|]. by apply Hlt.
Qed.

(** C2, as amended.  The receiver shows [n + 1] edges, the first ([s0]) at a
    clock reading [t0 > 0] and each later one less than 65,536 us after the
    one before, seen by polls in chronological order, with at most 399 edges
    in all and no wrap of the clock; then only polls less than 65,536 us
    after the last edge, and one poll at least 65,536 us after it.  Started
    by [startRx i] in learning state [i], capture stores exactly [n + 1]
    values at the start of slot [i]: the clock reading [t0] truncated to 16
    bits, then the differences [t1 - t0], ..., [tn - t(n-1)]; the rest of the
    slot is zero, and the last poll advances the state by one. *)
Theorem capture_stores_durations (i : nat) (m : Machine) (inp0 : Inputs)
  (s0 : segment) (segs : list segment) (quiet : list Z) (lvl T : Z)
  (Hi : (i < 2)%nat) (Hlen : length (sig m) = kSigLen)
  (Hs : state m = STATE_LEARN_0 + Z.of_nat i)
  (Hcap : (S (length segs) < kSlotLen)%nat)
  (Htimes : well_timed 0 (s0 :: segs))
  (Hquiet : Forall (fun t => last_edge (seg_edge s0) segs < t
                             < last_edge (seg_edge s0) segs + 65536) quiet)
  (HT : last_edge (seg_edge s0) segs + 65536 <= T < 2 ^ 32) :
  exists m0 m1 evs,
    startRx i inp0 m = Some (tt, m0, []) /\
    polls loopRx
      (capture_polls 0 (s0 :: segs)
         ++ map (sample (rx_level (S (length segs)))) quiet
         ++ [sample lvl T]) m0 = Some (m1, evs) /\
    slot i (sig m1) =
      (wrap16 (seg_edge s0) :: gaps (seg_edge s0) (edge_times segs))
        ++ replicate (kSlotLen - S (length segs)) 0 /\
    state m1 = state m + 1.
Proof.
  cbn [well_timed] in Htimes. destruct Htimes as (Hidle0 & Hedge0 & _ & Hwt).
  pose proof (rx_started_at i m Hlen Hs) as Hat0.
  assert (1 < kSlotLen)%nat as Hone by (unfold kSlotLen; lia).
  assert (0 <> 0 -> seg_edge s0 - 0 < 65536) as Hgap0 by (intros H; by destruct H).
  destruct (capture_segment i 0 0 s0 (rx_started 2 i m) Hat0 Hone Hi
              (Z.le_refl 0) Hidle0 Hedge0 Hgap0)
    as (m1 & Hrun1 & Hat1 & Hsig1).
  assert (0 < seg_edge s0) as Hpos by lia.
  assert (1 + length segs < kSlotLen)%nat as Hcap' by lia.
  destruct (capture_segments i segs 1 (seg_edge s0) m1 Hi Hpos Hat1 Hwt Hcap')
    as (m2 & Hrun2 & Hat2 & Hslot2).
  destruct (last_edge_bounds segs _ Hwt) as [Hle _].
  assert (0 < last_edge (seg_edge s0) segs) as Hpos' by lia.
  destruct (loopRx_final_poll i (1 + length segs) (last_edge (seg_edge s0) segs)
              lvl T m2 Hat2 Hi Hpos' HT) as (m3 & evs & Hrun3 & Hst3 & Hslot3).
  exists (rx_started 2 i m), m3, evs.
  split; [by apply startRx_eq|].
  split; [|split].
  - cbn [capture_polls]. rewrite <- app_assoc.
    rewrite polls_app, Hrun1, polls_app, Hrun2, polls_app.
    rewrite (loopRx_idle_polls i (1 + length segs) (last_edge (seg_edge s0) segs)).
    + cbn [polls]. rewrite Hrun3. cbn [app]. by rewrite app_nil_r.
    + done.
    + eapply Forall_impl; [exact Hquiet|]. cbn. intros t Ht. right. lia.
  - rewrite Hslot3, Hslot2, Hsig1.
    rewrite slot_insert_in by (unfold kSlotLen; lia).
    rewrite rx_started_slot by done.
    change (take 1 (<[0%nat:=wrap16 (sub32 (seg_edge s0) 0)]> (replicate kSlotLen 0)))
      with [wrap16 (sub32 (seg_edge s0) 0)].
    rewrite drop_insert_lt by lia. rewrite drop_replicate.
    rewrite sub32_small by lia. rewrite Z.sub_0_r. done.
  - rewrite Hst3. rewrite (rx_at_state _ _ _ _ Hat2). by rewrite Hs.
Qed.

(** The pattern taught first in [run_to_WAIT_1], with two idle polls. *)
Lemma capture_stores_durations_witness :
  exists m1 evs,
    polls loopRx
      [sample LOW 1000; sample LOW 1200; sample HIGH 1500; sample HIGH 1700;
       sample HIGH 80000]
      (rx_started 2 0 (machine_after press)) = Some (m1, evs) /\
    slot 0 (sig m1) = [1000; 500] ++ replicate 398 0 /\
    state m1 = STATE_LEARN_1.
Proof.
  destruct (capture_stores_durations 0 (machine_after press) (sample HIGH 0)
              (mkSegment [] 1000) [mkSegment [1200] 1500] [1700] HIGH 80000)
    as (m0 & m1 & evs & Hstart & Hrun & Hslot & Hstate).
  - lia.
  - by vm_compute.
  - by vm_compute.
  - unfold kSlotLen. cbn. lia.
  - cbn. repeat first [split | constructor]; try lia.
  - cbn. repeat first [split | constructor]; try lia.
  - cbn. lia.
  - rewrite startRx_eq in Hstart by (lia || by vm_compute).
    injection Hstart as <-.
    exists m1, evs. split; [exact Hrun|]. split; [exact Hslot|].
    rewrite Hstate. by vm_compute.
Defined.

(** C2 as stated fails: with the two edges of that pattern ([n = 1]) the
    slot does not hold the one value [t1 - t0 = 500] but two values, the
    first of them the clock reading of the first edge. *)
Lemma capture_stores_one_value_per_edge :
  exists m1 evs,
    polls loopRx [sample LOW 1000; sample HIGH 1500; sample HIGH 80000]
      (machine_after press) = Some (m1, evs) /\
    state m1 = STATE_LEARN_1 /\
    slot 0 (sig m1) = [1000; 500] ++ replicate 398 0 /\
    slot 0 (sig m1) <> gaps 1000 [1500] ++ replicate 399 0.
Proof.
  eexists _, _. split; [vm_compute; reflexivity|].
  split; [by vm_compute|]. split; [by vm_compute|].
  vm_compute. discriminate.
Qed.

(** ** Playback *)

Lemma trimmed_unique l N N' : trimmed l N -> trimmed l N' -> N = N'.
Proof.
  intros (Hle & Hz & Hlast) (Hle' & Hz' & Hlast').
  destruct (Nat.lt_trichotomy N N') as [Hlt|[->|Hgt]]; [|done|].
  - destruct Hlast' as [->|(v & Hv & Hnz)]; [lia|].
    rewrite Hz in Hv by lia. congruence.
  - destruct Hlast as [->|(v & Hv & Hnz)]; [lia|].
    rewrite Hz' in Hv by lia. congruence.
Qed.

Lemma trimTail_trimmed i mem :
  (i < 2)%nat -> length mem = kSigLen ->
  exists N, trimTail mem (slotBase i) kSlotLen = Some N /\ trimmed (slot i mem) N.
Proof.
  intros Hi Hlen.
  assert (slotBase i + kSlotLen <= length mem)%nat as Hfit
    by (rewrite Hlen; unfold slotBase, kSlotLen, kSigLen; lia).
  destruct (trimTail_total mem (slotBase i) kSlotLen Hfit) as [N HN].
  exists N. split; [done|].
  destruct (trimTail_spec _ _ _ _ HN) as (Hle & Hz & Hlast).
  rewrite <- (slot_length i mem Hfit) in Hle.
  split; [done|]. rewrite slot_length in * by done. split.
  - intros k Hk. rewrite slot_lookup by lia. by apply Hz.
  - destruct Hlast as [->|(v & Hv & Hnz)]; [by left|right].
    exists v. split; [|done].
    destruct (decide (N = O)) as [->|]; [|rewrite slot_lookup by lia; done].
    rewrite slot_lookup by (unfold kSlotLen; lia). done.
Qed.

Lemma startTx_trimmed i inp m N :
  (i < 2)%nat -> length (sig m) = kSigLen -> trimmed (slot i (sig m)) N ->
  startTx i inp m =
  Some (tt, tx_started i N m, [EvDigitalWrite kRedLedPin HIGH]).
Proof.
  intros Hi Hlen HN. rewrite startTx_eq.
  destruct (trimTail_trimmed i (sig m) Hi Hlen) as (N' & -> & HN').
  by rewrite (trimmed_unique _ _ _ HN HN').
Qed.

Lemma tx_started_at i N m :
  tx_at i N (sig m) (state m) 0 (tx_started i N m).
Proof. split; cbn; rewrite ?Nat.add_0_r; (done || lia). Qed.

Lemma setState_events_digital s inp m m' evs :
  setState s inp m = Some (tt, m', evs) -> Forall is_digitalWrite evs.
Proof.
  destruct (decide (s = state m)) as [->|Hne].
  { rewrite setState_same. by intros [= <- <-]. }
  rewrite setState_ne by done. unfold switch_state.
  repeat case_eqb; subst;
    try (intros [= <- <-]; by repeat constructor).
  - unfold enter_LEARN_0, startRx. rewrite !digitalWrite_bind, startRx_sized_eq.
    destruct (decide _); [|done]. intros [= <- <-]. by repeat constructor.
  - unfold enter_LEARN_1, startRx. rewrite !digitalWrite_bind, startRx_sized_eq.
    destruct (decide _); [|done]. intros [= <- <-]. by repeat constructor.
  - unfold enter_SEND_0. rewrite startTx_eq.
    destruct (trimTail _ _ _); [|done]. intros [= <- <-]. by repeat constructor.
  - unfold enter_SEND_1. rewrite startTx_eq.
    destruct (trimTail _ _ _); [|done]. intros [= <- <-]. by repeat constructor.
Qed.

Lemma waveform_digital on evs :
  Forall is_digitalWrite evs -> waveform on evs = [].
Proof.
  induction 1 as [|e evs He _ IH]; [done|]. by destruct e.
Qed.

Lemma waveform_tx_events on high d evs :
  waveform on (tx_events high d ++ EvNoTone kTxPin :: evs) =
  (if d =? 0 then [] else [(high, d)]) ++ waveform false evs.
Proof. unfold tx_events. by destruct (d =? 0), high. Qed.

Lemma waveform_tx_events_only on high d :
  waveform on (tx_events high d) = if d =? 0 then [] else [(high, d)].
Proof. unfold tx_events. by destruct (d =? 0), high. Qed.

Lemma odd_S_negb k : Nat.odd (S k) = negb (Nat.odd k).
Proof. by rewrite Nat.odd_succ, <- Nat.negb_odd. Qed.

(** A poll that is not the last one of the playback. *)
Lemma loopTx_mid i N mem st k d inp m :
  tx_at i N mem st k m -> (S k < N)%nat -> (N <= kSlotLen)%nat ->
  slot i mem !! k = Some d ->
  exists m',
    loopTx inp m = Some (tt, m', tx_events (Nat.odd k) d) /\
    tx_at i N mem st (S k) m'.
Proof.
  intros [Hsig Hst Hb Hl Hh] Hk HN Hd.
  rewrite slot_lookup in Hd by lia.
  rewrite loopTx_eq, Hb, Hsig, Hd, Hl, Hh.
  assert (wrap16 (Z.of_nat N - Z.of_nat k - 1) = Z.of_nat N - Z.of_nat k - 1) as ->
    by (unfold wrap16; apply Z.mod_small; unfold kSlotLen in *; lia).
  destruct (Z.eqb_spec (Z.of_nat N - Z.of_nat k - 1) 0) as [Hz|_]; [lia|].
  eexists. split; [reflexivity|].
  split; cbn -[wrap16 Nat.odd]; try done.
  - f_equal. lia.
  - rewrite Hl. unfold wrap16. rewrite Z.mod_small by (unfold kSlotLen in *; lia). lia.
  - by rewrite Hh, odd_S_negb.
Qed.

(** The last poll of the playback. *)
Lemma loopTx_last i N mem st k d inp m :
  tx_at i N mem st k m -> S k = N -> (N <= kSlotLen)%nat ->
  length mem = kSigLen ->
  slot i mem !! k = Some d ->
  exists m' evs,
    loopTx inp m =
      Some (tt, m', tx_events (Nat.odd k) d ++ EvNoTone kTxPin :: evs) /\
    Forall is_digitalWrite evs /\
    state m' = wrap8 (st + 1).
Proof.
  intros [Hsig Hst Hb Hl Hh] Hk HN Hlen Hd.
  rewrite slot_lookup in Hd by lia.
  rewrite loopTx_eq, Hb, Hsig, Hd, Hl, Hh.
  replace (Z.of_nat N - Z.of_nat k - 1) with 0 by lia.
  change (wrap16 0 =? 0) with true. cbn match.
  destruct (setState_total (wrap8 (state m + 1)) inp
              (set_txBuf None (tx_advanced (slotBase i + k) m)))
    as (m' & evs & Hrun); [cbn; congruence|].
  rewrite Hrun. exists m', evs. split; [done|].
  split; [by eapply setState_events_digital|].
  destruct (setState_frame _ _ _ _ _ Hrun) as [Hst' _].
  by rewrite Hst', Hst.
Qed.

Lemma waveform_tx_events_app on high d evs :
  exists on',
    waveform on (tx_events high d ++ evs) =
    (if d =? 0 then [] else [(high, d)]) ++ waveform on' evs.
Proof.
  unfold tx_events. destruct (d =? 0); [by exists on|].
  exists high. by destruct high.
Qed.

Lemma stored_wave_snoc ds : forall k d,
  stored_wave k (ds ++ [d]) =
  stored_wave k ds ++ (if d =? 0 then [] else [(Nat.odd (k + length ds), d)]).
Proof.
  induction ds as [|d0 ds IH]; intros k d; cbn [stored_wave app length].
  - by rewrite Nat.add_0_r, app_nil_r.
  - rewrite IH, <- app_assoc. by replace (S k + length ds)%nat
      with (k + S (length ds))%nat by lia.
Qed.

Lemma playback_polls i N mem st ins : forall k m,
  (i < 2)%nat ->
  tx_at i N mem st k m -> (k + length ins < N)%nat -> (N <= kSlotLen)%nat ->
  length mem = kSigLen ->
  exists m' evs,
    polls loopTx ins m = Some (m', evs) /\
    tx_at i N mem st (k + length ins) m' /\
    forall on,
      waveform on evs = stored_wave k (take (length ins) (drop k (slot i mem))).
Proof.
  induction ins as [|inp ins IH]; intros k m Hi Hat Hk HN Hlen.
  - exists m, []. cbn [length]. by rewrite Nat.add_0_r.
  - cbn [length] in *.
    destruct (lookup_lt_is_Some_2 (slot i mem) k) as [d Hd].
    { rewrite slot_length; [lia|].
      rewrite Hlen. unfold slotBase, kSlotLen, kSigLen in *. lia. }
    destruct (loopTx_mid i N mem st k d inp m) as (m1 & Hrun1 & Hat1);
      [done|lia|done|done|].
    destruct (IH (S k) m1) as (m2 & e2 & Hrun2 & Hat2 & Hwave2);
      [done|done|lia|done|done|].
    exists m2, (tx_events (Nat.odd k) d ++ e2).
    cbn [polls]. rewrite Hrun1, Hrun2. split; [done|]. split.
    + by replace (k + S (length ins))%nat with (S k + length ins)%nat by lia.
    + intros on.
      destruct (waveform_tx_events_app on (Nat.odd k) d e2) as [on' ->].
      rewrite (drop_S _ d k) by done. cbn [take stored_wave].
      by rewrite Hwave2.
Qed.

(** X14. Playback of slot [i], whose cells without the trailing zeros are the
    first [N]: [startTx i] sets the remaining length to [N], and after it
    the polls 0 .. k-1 return for every [k < N]; poll [k] then returns having
    made, for the duration [d] stored in cell [k], the calls [noTone] (even
    [k]) or [tone] (odd [k]) and [delayMicroseconds(d)]: as a wave, one
    segment of [d] microseconds with the carrier off for even [k] and on for
    odd [k].  (A zero [d] makes the poll skip both calls: a drive of zero
    microseconds.)  The wave of the polls 0 .. k together is the wave the
    first [k + 1] cells stand for.  The last poll, [k = N - 1], then
    switches the carrier off and advances the state by one, so the cells
    after the first [N] are not played; every earlier poll leaves the
    state. *)
Theorem playback_follows_slot (i : nat) (m : Machine) (inp0 : Inputs)
  (ins : list Inputs) (inp : Inputs) (N k : nat) (d : Z) (on : bool)
  (Hi : (i < 2)%nat) (Hlen : length (sig m) = kSigLen)
  (HN : trimmed (slot i (sig m)) N)
  (Hins : length ins = k) (Hk : (k < N)%nat)
  (Hd : slot i (sig m) !! k = Some d) :
  exists m0 e0 mk ek m' e',
    startTx i inp0 m = Some (tt, m0, e0) /\ txLen m0 = Z.of_nat N /\
    polls loopTx ins m0 = Some (mk, ek) /\
    loopTx inp mk = Some (tt, m', e') /\
    (exists rest,
       e' = tx_events (Nat.odd k) d ++ rest /\
       ((S k < N)%nat -> rest = []) /\
       (S k = N -> exists evs, rest = EvNoTone kTxPin :: evs /\
                               Forall is_digitalWrite evs)) /\
    waveform on e' = (if d =? 0 then [] else [(Nat.odd k, d)]) /\
    waveform on (ek ++ e') = stored_wave 0 (take (S k) (slot i (sig m))) /\
    ((S k < N)%nat -> state m' = state m) /\
    (S k = N -> state m' = wrap8 (state m + 1)).
Proof.
  assert (N <= kSlotLen)%nat as HNle.
  { destruct HN as (Hle & _). rewrite slot_length in Hle; [done|].
    rewrite Hlen. unfold slotBase, kSlotLen, kSigLen. lia. }
  pose proof (tx_started_at i N m) as Hat0.
  destruct (playback_polls i N (sig m) (state m) ins 0 (tx_started i N m))
    as (mk & ek & Hrun & Hatk & Hwavek); [done|done|cbn; lia|done|done|].
  cbn [Nat.add] in Hatk. rewrite Hins in Hatk, Hwavek. rewrite drop_0 in Hwavek.
  assert (Hwhole : forall e', (forall c, waveform c e' =
                                 if d =? 0 then [] else [(Nat.odd k, d)]) ->
            waveform on (ek ++ e') = stored_wave 0 (take (S k) (slot i (sig m)))).
  { intros e' He'. rewrite (take_S_r _ k d) by done.
    rewrite stored_wave_snoc, length_take.
    assert (k <= length (slot i (sig m)))%nat
      by (apply lookup_lt_Some in Hd; lia).
    replace (0 + k `min` length (slot i (sig m)))%nat with k by lia.
    rewrite <- (Hwavek on). clear -He'.
    revert on. induction ek as [|e ek IH]; intros on; [apply He'|].
    destruct e; cbn [app waveform]; by rewrite IH. }
  exists (tx_started i N m), [EvDigitalWrite kRedLedPin HIGH], mk, ek.
  destruct (decide (S k = N)) as [Hlast|Hmid].
  - destruct (loopTx_last i N (sig m) (state m) k d inp mk)
      as (m' & evs & Hstep & Hdig & Hst); try done.
    exists m', (tx_events (Nat.odd k) d ++ EvNoTone kTxPin :: evs).
    assert (forall c, waveform c (tx_events (Nat.odd k) d ++ EvNoTone kTxPin :: evs)
                      = if d =? 0 then [] else [(Nat.odd k, d)]) as Hw.
    { intros c. rewrite waveform_tx_events, waveform_digital by done.
      by rewrite app_nil_r. }
    split; [by apply startTx_trimmed|]. split; [done|].
    split; [done|]. split; [done|]. split.
    { exists (EvNoTone kTxPin :: evs). split; [done|].
      split; [lia|]. intros _. by exists evs. }
    split; [apply Hw|]. split; [by apply Hwhole|].
    split; [lia|done].
  - destruct (loopTx_mid i N (sig m) (state m) k d inp mk)
      as (m' & Hstep & Hat'); [done|lia|done|done|].
    exists m', (tx_events (Nat.odd k) d).
    split; [by apply startTx_trimmed|]. split; [done|].
    split; [done|]. split; [done|]. split.
    { exists []. rewrite app_nil_r. split; [done|]. split; [done|lia]. }
    split; [apply waveform_tx_events_only|].
    split; [apply Hwhole; intros c; apply waveform_tx_events_only|].
    split; [|lia]. intros _. apply (tx_at_state _ _ _ _ _ _ Hat').
Qed.

Lemma trimmed_app_zeros (l : list Z) (n : nat) :
  (forall v, last l = Some v -> v <> 0) ->
  trimmed (l ++ replicate n 0) (length l).
Proof.
  intros Hlast. split; [rewrite length_app; lia|]. split.
  - intros k Hk. rewrite length_app, length_replicate in Hk.
    rewrite lookup_app_r by lia. apply lookup_replicate_2. lia.
  - destruct l as [|x l]; [by left|right].
    destruct (last (x :: l)) as [v|] eqn:Hv.
    + exists v. split; [|by apply Hlast].
      rewrite lookup_app_l by (cbn; lia).
      rewrite last_lookup in Hv.
      by replace (length (x :: l) - 1)%nat with (pred (length (x :: l))) by lia.
    + by apply last_None in Hv.
Qed.

Lemma playback_follows_slot_witness :
  exists m0 e0 mk ek m' e',
    startTx 0 (tick 0) machine_taught = Some (tt, m0, e0) /\
    polls loopTx [tick 1] m0 = Some (mk, ek) /\
    loopTx (tick 2) mk = Some (tt, m', e') /\
    waveform false e' = [(true, 500)].
Proof.
  destruct (playback_follows_slot 0 machine_taught (tick 0) [tick 1] (tick 2)
              2 1 500 false)
    as (m0 & e0 & mk & ek & m' & e' & H0 & _ & Hk & Hstep & _ & Hwave & _).
  - lia.
  - by vm_compute.
  - assert (slot 0 (sig machine_taught) = [1000; 500] ++ replicate 398 0) as ->
      by (vm_compute; reflexivity).
    apply (trimmed_app_zeros [1000; 500] 398). intros v [= <-]. discriminate.
  - reflexivity.
  - lia.
  - vm_compute. reflexivity.
  - exists m0, e0, mk, ek, m', e'.
    split; [exact H0|]. split; [exact Hk|]. split; [exact Hstep|exact Hwave].
Defined.

(** ** Playback of an empty slot *)

Lemma wrap16_neg (j : nat) :
  (1 <= j <= kSlotLen)%nat -> wrap16 (- Z.of_nat j) = 65536 - Z.of_nat j.
Proof.
  intros Hj. unfold wrap16, kSlotLen in *.
  symmetry. apply (Z.mod_unique _ _ (-1)); lia.
Qed.

Lemma wrap16_neg_pred (j : nat) :
  wrap16 (wrap16 (- Z.of_nat j) - 1) = wrap16 (- Z.of_nat (S j)).
Proof. unfold wrap16. rewrite Zminus_mod_idemp_l. f_equal. lia. Qed.

Lemma loopTx_wrapped i mem st j inp m :
  tx_wrapped i mem st j m -> (j < kSlotLen)%nat ->
  slot i mem = replicate kSlotLen 0 ->
  exists m', loopTx inp m = Some (tt, m', []) /\ tx_wrapped i mem st (S j) m'.
Proof.
  intros [Hsig Hst Hb Hl] Hj Hzero.
  assert (mem !! (slotBase i + j)%nat = Some 0) as Hd.
  { rewrite <- slot_lookup by done. rewrite Hzero. by apply lookup_replicate_2. }
  rewrite loopTx_eq, Hb, Hsig, Hd, Hl.
  rewrite wrap16_neg_pred, (wrap16_neg (S j)) by lia.
  destruct (Z.eqb_spec (65536 - Z.of_nat (S j)) 0) as [Hz|_];
    [unfold kSlotLen in *; lia|].
  eexists. split; [reflexivity|].
  split; cbn -[wrap16]; try done.
  - f_equal. lia.
  - rewrite Hl. apply wrap16_neg_pred.
Qed.

Lemma polls_wrapped i mem st ins : forall j m,
  tx_wrapped i mem st j m -> (j + length ins <= kSlotLen)%nat ->
  slot i mem = replicate kSlotLen 0 ->
  exists m',
    polls loopTx ins m = Some (m', []) /\
    tx_wrapped i mem st (j + length ins) m'.
Proof.
  induction ins as [|inp ins IH]; intros j m Hat Hj Hzero.
  - exists m. cbn [length]. by rewrite Nat.add_0_r.
  - cbn [length] in *.
    destruct (loopTx_wrapped i mem st j inp m) as (m1 & Hrun1 & Hat1);
      [done|lia|done|].
    destruct (IH (S j) m1) as (m2 & Hrun2 & Hat2); [done|lia|done|].
    exists m2. cbn [polls]. rewrite Hrun1, Hrun2. split; [done|].
    by replace (j + S (length ins))%nat with (S j + length ins)%nat by lia.
Qed.

Lemma trimmed_zeros (n : nat) : trimmed (replicate n 0) 0.
Proof.
  split; [lia|]. split; [|by left].
  intros k Hk. rewrite length_replicate in Hk. apply lookup_replicate_2. lia.
Qed.

Lemma wrap8_succ_ne (s : Z) : wrap8 (s + 1) <> s.
Proof.
  unfold wrap8. intros Heq.
  pose proof (Z.mod_pos_bound (s + 1) (2 ^ 8) ltac:(lia)) as Hb.
  pose proof (Z.div_mod (s + 1) (2 ^ 8) ltac:(lia)) as Hdm.
  lia.
Qed.

(** C10. [startTx] on a slot of 400 zeros trims the remaining length to 0.
    The first poll of [loopTx] after it finds a zero cell, makes no hardware
    call, steps the cursor and takes the 16-bit length from 0 to 65,535; it
    neither switches the carrier off nor changes the state.  The polls go on
    like that: after [n <= 400] of them the cursor is [n] cells on (at 400,
    past the slot), the length is [65536 - n] and the state is still the
    sending state.  For any slot contents, a first poll that changes the
    state implies that the slot holds a non-zero cell. *)
Theorem playback_of_empty_slot (i : nat) (m : Machine) (inp0 inp : Inputs)
  (Hi : (i < 2)%nat) (Hlen : length (sig m) = kSigLen) :
  exists m0 e0,
    startTx i inp0 m = Some (tt, m0, e0) /\
    (slot i (sig m) = replicate kSlotLen 0 ->
       txLen m0 = 0 /\
       (exists m1,
          loopTx inp m0 = Some (tt, m1, []) /\
          txLen m1 = 65535 /\ txBuf m1 = Some (S (slotBase i)) /\
          state m1 = state m) /\
       (forall ins : list Inputs,
          (1 <= length ins <= kSlotLen)%nat ->
          exists mn,
            polls loopTx ins m0 = Some (mn, []) /\
            txBuf mn = Some (slotBase i + length ins)%nat /\
            txLen mn = 65536 - Z.of_nat (length ins) /\
            state mn = state m)) /\
    (forall m1 e1,
       loopTx inp m0 = Some (tt, m1, e1) -> state m1 <> state m ->
       exists k v, (k < kSlotLen)%nat /\ slot i (sig m) !! k = Some v /\ v <> 0).
Proof.
  destruct (trimTail_trimmed i (sig m) Hi Hlen) as (N & HN & Htrim).
  exists (tx_started i N m), [EvDigitalWrite kRedLedPin HIGH].
  split; [by rewrite startTx_eq, HN|].
  assert (slotBase i + kSlotLen <= length (sig m))%nat as Hfit
    by (rewrite Hlen; unfold slotBase, kSlotLen, kSigLen; lia).
  split.
  - intros Hzero.
    assert (N = 0%nat) as ->.
    { apply (trimmed_unique (slot i (sig m))); [done|].
      rewrite Hzero. apply trimmed_zeros. }
    assert (tx_wrapped i (sig m) (state m) 0 (tx_started i 0 m)) as Hat0
      by (split; cbn; rewrite ?Nat.add_0_r; done).
    split; [done|]. split.
    + destruct (loopTx_wrapped i (sig m) (state m) 0 inp (tx_started i 0 m))
        as (m1 & Hrun & [Hs1 Hst1 Hb1 Hl1]); [done|unfold kSlotLen; lia|done|].
      exists m1. split; [done|]. split; [by rewrite Hl1|].
      split; [|done]. rewrite Hb1. f_equal. lia.
    + intros ins Hins.
      destruct (polls_wrapped i (sig m) (state m) ins 0 (tx_started i 0 m))
        as (mn & Hrun & [Hsn Hstn Hbn Hln]); [done|cbn; lia|done|].
      exists mn. split; [done|]. cbn [Nat.add] in *.
      split; [done|]. split; [|done].
      rewrite Hln. apply wrap16_neg. lia.
  - intros m1 e1 Hrun Hadv.
    destruct Htrim as (Hle & _ & [->|(v & Hv & Hnz)]).
    + exfalso. apply Hadv. revert Hrun. rewrite loopTx_eq.
      cbn [txBuf tx_started set_txLen set_txHigh set_txBuf set_pins].
      cbn [sig txLen tx_started set_txLen set_txHigh set_txBuf set_pins].
      destruct (lookup_lt_is_Some_2 (sig m) (slotBase i)) as [d ->];
        [unfold kSlotLen in *; lia|].
      change (wrap16 (Z.of_nat 0 - 1) =? 0) with false. cbn match.
      by intros [= <- <-].
    + rewrite slot_length in Hle by done.
      exists (N - 1)%nat, v. split; [unfold kSlotLen in *; lia|done].
Qed.

Lemma playback_of_empty_slot_witness :
  state (machine_after run_to_empty_slot) = STATE_INITED /\
  exists m0 e0 m1,
    startTx 0 (tick 0) (machine_after run_to_empty_slot) = Some (tt, m0, e0) /\
    loopTx (tick 1) m0 = Some (tt, m1, []) /\
    txLen m1 = 65535.
Proof.
  split; [vm_compute; reflexivity|].
  destruct (playback_of_empty_slot 0 (machine_after run_to_empty_slot)
              (tick 0) (tick 1))
    as (m0 & e0 & Hstart & Hzero & _).
  - lia.
  - vm_compute. reflexivity.
  - destruct Hzero as (_ & (m1 & Hrun & Hl & _) & _).
    + vm_compute. reflexivity.
    + exists m0, e0, m1. split; [exact Hstart|]. split; [exact Hrun|exact Hl].
Defined.

(** C1. The claim fails on a slot that was recorded empty.  The run
    [run_to_empty_slot] teaches a first pattern whose only edge is seen at
    the clock reading 65,536, so slot 0 holds 400 zeros (and slot 1 the
    values 18928 and 100), and the press after it starts the playback of
    slot 0.  Without its trailing zeros slot 0 is the empty sequence, which
    stands for the empty wave; but the remaining length starts at 0 and wraps
    to 65,535 at the first poll, so the polls walk on: 402 calls of [loop]
    have played cells 0 and 1 of slot 1, the carrier off for 18928 us and on
    for 100 us, with the state still SEND_0, and the 801st call reads the
    cell behind the end of [sig]. *)
Theorem playback_of_recorded_empty_slot_diverges :
  state (machine_after (run_to_empty_slot ++ press)) = STATE_SEND_0 /\
  txLen (machine_after (run_to_empty_slot ++ press)) = 0 /\
  trimmed (slot 0 (sig (machine_after (run_to_empty_slot ++ press)))) 0 /\
  stored_wave 0 (slot 0 (sig (machine_after (run_to_empty_slot ++ press)))) = [] /\
  (exists m' evs,
     polls loop (replicate 402 (tick 0))
       (machine_after (run_to_empty_slot ++ press)) = Some (m', evs) /\
     waveform false evs = [(false, 18928); (true, 100)] /\
     state m' = STATE_SEND_0) /\
  polls loop (replicate 801 (tick 0))
    (machine_after (run_to_empty_slot ++ press)) = None.
Proof.
  assert (slot 0 (sig (machine_after (run_to_empty_slot ++ press)))
          = replicate kSlotLen 0) as Hzero by (vm_compute; reflexivity).
  split; [vm_compute; reflexivity|].
  split; [vm_compute; reflexivity|].
  split; [rewrite Hzero; apply trimmed_zeros|].
  split; [vm_compute; reflexivity|].
  split; [|vm_compute; reflexivity].
  eexists _, _. split; [vm_compute; reflexivity|].
  split; vm_compute; reflexivity.
Qed.

(** ** The schedule *)





(** ** A run into overflow *)

(** 399 edges leave one cell free and the state in LEARN_0; the 400th edge
    fills the slot and puts the state back to UNINITIALIZED. *)
Example capture_overflow_run :
  overflow_summary = (STATE_LEARN_0, 1, Some (STATE_UNINITED, Some 400%nat)).
Proof. vm_compute. reflexivity. Qed.

(** * Further properties of the sketch *)

(** ** What [setState] reads and what it keeps *)

Lemma setState_SEND_0 inp m :
  state m <> STATE_SEND_0 ->
  setState STATE_SEND_0 inp m =
  match trimTail (sig m) (slotBase 0) kSlotLen with
  | Some n => Some (tt, tx_started 0 n (set_state STATE_SEND_0 m),
                    [EvDigitalWrite kRedLedPin HIGH])
  | None => None
  end.
Proof.
  intros Hne. rewrite setState_ne by done.
  change (switch_state STATE_SEND_0) with enter_SEND_0.
  unfold enter_SEND_0. by rewrite startTx_eq.
Qed.

Lemma setState_SEND_1 inp m :
  state m <> STATE_SEND_1 ->
  setState STATE_SEND_1 inp m =
  match trimTail (sig m) (slotBase 1) kSlotLen with
  | Some n => Some (tt, tx_started 1 n (set_state STATE_SEND_1 m),
                    [EvDigitalWrite kRedLedPin HIGH])
  | None => None
  end.
Proof.
  intros Hne. rewrite setState_ne by done.
  change (switch_state STATE_SEND_1) with enter_SEND_1.
  unfold enter_SEND_1. by rewrite startTx_eq.
Qed.

(** Only the entry actions of the two wait states read an input, and the
    one they read is the millisecond clock. *)
Lemma setState_inputs s inp1 inp2 m :
  (s = STATE_WAIT_0 \/ s = STATE_WAIT_1 -> in_millis inp1 = in_millis inp2) ->
  setState s inp1 m = setState s inp2 m.
Proof.
  intros Hms.
  destruct (decide (s = state m)) as [->|Hne].
  { by rewrite !setState_same. }
  rewrite !setState_ne by done. unfold switch_state.
  repeat case_eqb; subst; try reflexivity.
  - unfold enter_LEARN_0, startRx.
    by rewrite !digitalWrite_bind, !startRx_sized_eq.
  - unfold enter_LEARN_1, startRx.
    by rewrite !digitalWrite_bind, !startRx_sized_eq.
  - unfold enter_SEND_0. by rewrite !startTx_eq.
  - unfold enter_WAIT_0. rewrite !digitalWrite_bind, !startWait_eq.
    unfold wait_started. by rewrite Hms by (by left).
  - unfold enter_SEND_1. by rewrite !startTx_eq.
  - unfold enter_WAIT_1. rewrite !digitalWrite_bind, !startWait_eq.
    unfold wait_started. by rewrite Hms by (by right).
Qed.

Lemma setState_prevButton s inp m m' evs :
  setState s inp m = Some (tt, m', evs) -> prevButton m' = prevButton m.
Proof.
  destruct (decide (s = state m)) as [->|Hne].
  { rewrite setState_same. by intros [= <- <-]. }
  rewrite setState_ne by done. unfold switch_state.
  repeat case_eqb; subst; try (by intros [= <- <-]).
  - unfold enter_LEARN_0, startRx. rewrite !digitalWrite_bind, startRx_sized_eq.
    destruct (decide _); [|done]. by intros [= <- <-].
  - unfold enter_LEARN_1, startRx. rewrite !digitalWrite_bind, startRx_sized_eq.
    destruct (decide _); [|done]. by intros [= <- <-].
  - unfold enter_SEND_0. rewrite startTx_eq.
    destruct (trimTail _ _ _); [|done]. by intros [= <- <-].
  - unfold enter_SEND_1. rewrite startTx_eq.
    destruct (trimTail _ _ _); [|done]. by intros [= <- <-].
Qed.

(** ** Learning and sending do not look at the button *)

Lemma loop_learning inp m :
  state m = STATE_LEARN_0 \/ state m = STATE_LEARN_1 -> loop inp m = loopRx inp m.
Proof. intros [Hs|Hs]; by rewrite loop_eq, Hs. Qed.

Lemma loop_sending inp m :
  state m = STATE_SEND_0 \/ state m = STATE_SEND_1 -> loop inp m = loopTx inp m.
Proof. intros [Hs|Hs]; by rewrite loop_eq, Hs. Qed.

Lemma loop_waiting inp m :
  state m = STATE_WAIT_0 \/ state m = STATE_WAIT_1 -> loop inp m = loopWait inp m.
Proof. intros [Hs|Hs]; by rewrite loop_eq, Hs. Qed.

Lemma loopRx_prevButton inp m m' evs :
  loopRx inp m = Some (tt, m', evs) -> prevButton m' = prevButton m.
Proof.
  rewrite loopRx_eq.
  destruct (timed_out inp m); [apply setState_prevButton|].
  destruct (in_rx inp =? prevRx m); [by intros [= <- <-]|].
  destruct (rxBuf m) as [p|]; [|done].
  destruct (decide _); [|done].
  destruct (wrap16 (rxSize m - 1) =? 0).
  - intros Hrun. by apply setState_prevButton in Hrun.
  - by intros [= <- <-].
Qed.

Lemma loopTx_prevButton inp m m' evs :
  loopTx inp m = Some (tt, m', evs) -> prevButton m' = prevButton m.
Proof.
  rewrite loopTx_eq.
  destruct (txBuf m) as [p|]; [|done].
  destruct (sig m !! p) as [d|]; [|done].
  destruct (wrap16 (txLen m - 1) =? 0).
  - destruct (setState _ inp _) as [[[[] m2] e2]|] eqn:Hset; [|done].
    intros [= <- <-]. by apply setState_prevButton in Hset.
  - by intros [= <- <-].
Qed.

(** X7. In the learning states a call of [loop] depends on the receiver pin
    and the microsecond clock only, and in the sending states on the
    millisecond clock only: the button is not read, and the stored button
    level is left as it is.  So learning and sending cannot be interrupted
    from the button, and a press that starts and ends in one of these states
    is never seen. *)
Theorem learning_and_sending_ignore_button (inp1 inp2 : Inputs) (m : Machine) :
  (state m = STATE_LEARN_0 \/ state m = STATE_LEARN_1 ->
   in_rx inp1 = in_rx inp2 -> in_micros inp1 = in_micros inp2 ->
   loop inp1 m = loop inp2 m) /\
  (state m = STATE_SEND_0 \/ state m = STATE_SEND_1 ->
   in_millis inp1 = in_millis inp2 ->
   loop inp1 m = loop inp2 m) /\
  ((state m = STATE_LEARN_0 \/ state m = STATE_LEARN_1) \/
   (state m = STATE_SEND_0 \/ state m = STATE_SEND_1) ->
   forall m' evs, loop inp1 m = Some (tt, m', evs) ->
                  prevButton m' = prevButton m).
Proof.
  split; [|split].
  - intros Hs Hrx Hus. rewrite !loop_learning by done.
    rewrite !loopRx_eq. unfold timed_out, rx_recorded, rx_duration.
    rewrite Hrx, Hus.
    assert (forall s, s <> STATE_WAIT_0 -> s <> STATE_WAIT_1 ->
              forall m0, setState s inp1 m0 = setState s inp2 m0) as Hset.
    { intros s H0 H1 m0. apply setState_inputs. by intros [?|?]. }
    destruct (negb (startMicros m =? 0) && _).
    { apply Hset; destruct Hs as [-> | ->]; done. }
    destruct (in_rx inp2 =? prevRx m); [done|].
    destruct (rxBuf m) as [p|]; [|done].
    destruct (decide _); [|done].
    destruct (wrap16 (rxSize m - 1) =? 0); [|done].
    by apply Hset.
  - intros Hs Hms. rewrite !loop_sending by done.
    rewrite !loopTx_eq.
    destruct (txBuf m) as [p|]; [|done].
    destruct (sig m !! p) as [d|]; [|done].
    destruct (wrap16 (txLen m - 1) =? 0); [|done].
    by rewrite (setState_inputs _ inp1 inp2).
  - intros [Hs|Hs] m' evs.
    + rewrite loop_learning by done. apply loopRx_prevButton.
    + rewrite loop_sending by done. apply loopTx_prevButton.
Qed.

(** In the sending state a poll that sees the button LOW leaves the same
    machine as one that sees it HIGH (and other levels on the receiver pin
    and the microsecond clock). *)
Lemma learning_and_sending_ignore_button_witness :
  state (machine_after (run_to_empty_slot ++ press)) = STATE_SEND_0 /\
  loop (mkInputs LOW HIGH 0 7) (machine_after (run_to_empty_slot ++ press))
  = loop (mkInputs HIGH LOW 9 7) (machine_after (run_to_empty_slot ++ press)).
Proof.
  split; [vm_compute; reflexivity|].
  destruct (learning_and_sending_ignore_button (mkInputs LOW HIGH 0 7)
              (mkInputs HIGH LOW 9 7)
              (machine_after (run_to_empty_slot ++ press))) as (_ & Hsend & _).
  apply Hsend; [left; vm_compute; reflexivity|reflexivity].
Defined.

(** ** The state graph *)

Lemma loopRx_state inp m m' evs :
  loopRx inp m = Some (tt, m', evs) ->
  state m' = state m \/ state m' = wrap8 (state m + 1) \/ state m' = STATE_UNINITED.
Proof.
  rewrite loopRx_eq.
  destruct (timed_out inp m).
  { intros Hrun. apply setState_frame in Hrun as [-> _]. right; left; done. }
  destruct (in_rx inp =? prevRx m); [intros [= <- <-]; by left|].
  destruct (rxBuf m) as [p|]; [|done].
  destruct (decide _); [|done].
  destruct (wrap16 (rxSize m - 1) =? 0).
  - intros Hrun. apply setState_frame in Hrun as [-> _]. right; right; done.
  - intros [= <- <-]. by left.
Qed.

Lemma loopTx_state inp m m' evs :
  loopTx inp m = Some (tt, m', evs) ->
  state m' = state m \/ state m' = wrap8 (state m + 1).
Proof.
  rewrite loopTx_eq.
  destruct (txBuf m) as [p|]; [|done].
  destruct (sig m !! p) as [d|]; [|done].
  destruct (wrap16 (txLen m - 1) =? 0).
  - destruct (setState _ inp _) as [[[[] m2] e2]|] eqn:Hset; [|done].
    intros [= <- <-]. apply setState_frame in Hset as [-> _]. by right.
  - intros [= <- <-]. by left.
Qed.

Lemma loopWait_state inp m m' evs :
  loopWait inp m = Some (tt, m', evs) ->
  state m' = state m \/ state m' = STATE_SEND_0
  \/ state m' = wrap8 (state m + 1).
Proof.
  rewrite loopWait_eq.
  destruct (button_edge inp m).
  { intros Hrun. apply setState_frame in Hrun as [-> _]. right; left; done. }
  destruct (wait_over inp m).
  - intros Hrun. apply setState_frame in Hrun as [-> _]. right; right; done.
  - intros [= <- <-]. by left.
Qed.

Lemma loop_step_state inp m m' evs :
  loop inp m = Some (tt, m', evs) -> In (state m') (next_states (state m)).
Proof.
  rewrite loop_eq. unfold next_states.
  destruct (Z.eqb_spec (state m) STATE_UNINITED) as [Hs|_].
  { rewrite loopUninitialized_eq. destruct (button_edge inp m).
    - intros Hrun. apply setState_frame in Hrun as [-> _]. right; left; done.
    - intros [= <- <-]. left. by rewrite <- Hs. }
  destruct (Z.eqb_spec (state m) STATE_LEARN_0) as [Hs|_].
  { cbn [orb]. intros Hrun. apply loopRx_state in Hrun. rewrite Hs in Hrun.
    destruct Hrun as [-> | [-> | ->]]; cbn; tauto. }
  destruct (Z.eqb_spec (state m) STATE_LEARN_1) as [Hs|_].
  { cbn [orb]. intros Hrun. apply loopRx_state in Hrun. rewrite Hs in Hrun.
    destruct Hrun as [-> | [-> | ->]]; cbn; tauto. }
  cbn [orb].
  destruct (Z.eqb_spec (state m) STATE_INITED) as [Hs|_].
  { rewrite loopInitialized_eq. destruct (button_edge inp m).
    - intros Hrun. apply setState_frame in Hrun as [-> _]. right; left; done.
    - intros [= <- <-]. left. by rewrite <- Hs. }
  destruct (Z.eqb_spec (state m) STATE_SEND_0) as [Hs|_].
  { cbn [orb]. intros Hrun. apply loopTx_state in Hrun. rewrite Hs in Hrun.
    destruct Hrun as [-> | ->]; cbn; tauto. }
  destruct (Z.eqb_spec (state m) STATE_WAIT_0) as [Hs|_].
  { assert ((state m =? STATE_SEND_1) = false) as -> by (by rewrite Hs).
    cbn [orb]. intros Hrun. apply loopWait_state in Hrun. rewrite Hs in Hrun.
    destruct Hrun as [-> | [-> | ->]]; cbn; tauto. }
  destruct (Z.eqb_spec (state m) STATE_SEND_1) as [Hs|_].
  { cbn [orb]. intros Hrun. apply loopTx_state in Hrun. rewrite Hs in Hrun.
    destruct Hrun as [-> | ->]; cbn; tauto. }
  cbn [orb].
  destruct (Z.eqb_spec (state m) STATE_WAIT_1) as [Hs|_].
  { intros Hrun. apply loopWait_state in Hrun. rewrite Hs in Hrun.
    destruct Hrun as [-> | [-> | ->]]; cbn; tauto. }
  intros Hrun. apply setState_frame in Hrun as [-> _]. by left.
Qed.

Lemma next_states_from_ready s s' :
  STATE_INITED <= s <= 8 -> In s' (next_states s) -> STATE_INITED <= s' <= 8.
Proof.
  unfold next_states, STATE_UNINITED, STATE_LEARN_0, STATE_LEARN_1,
    STATE_INITED, STATE_SEND_0, STATE_WAIT_0, STATE_SEND_1, STATE_WAIT_1.
  intros Hs. repeat case_eqb; try lia; cbn; lia.
Qed.

(** X9. A call of [loop] that returns moves the state along an edge of the
    state graph [next_states]: UNINITIALIZED to LEARN_0; a learning state to
    the next state or back to UNINITIALIZED; READY to SEND_0; a sending state
    to its wait state; a wait state to the next value or to SEND_0; any other
    value to SEND_0; or it leaves the state.  No edge leads from READY or a
    later state back to UNINITIALIZED or a learning state: once both patterns
    are learned the sketch never learns again, whatever the inputs. *)
Theorem loop_follows_state_graph (inp : Inputs) (ins : list Inputs)
  (m m1 m2 : Machine) (e1 e2 : list event)
  (Hstep : loop inp m = Some (tt, m1, e1))
  (Hrun : polls loop ins m1 = Some (m2, e2)) :
  In (state m1) (next_states (state m)) /\
  (STATE_INITED <= state m <= 8 -> STATE_INITED <= state m2 <= 8).
Proof.
  split; [by eapply loop_step_state|].
  intros Hs.
  assert (STATE_INITED <= state m1 <= 8) as Hs1.
  { apply (next_states_from_ready (state m)); [done|]. by eapply loop_step_state. }
  clear Hstep Hs. revert m1 e2 Hrun Hs1.
  induction ins as [|i0 ins IH]; intros m1 e2 Hrun Hs1; cbn [polls] in Hrun.
  - by injection Hrun as <- <-.
  - destruct (loop i0 m1) as [[[[] m3] e3]|] eqn:Hstep; [|done].
    destruct (polls loop ins m3) as [[m4 e4]|] eqn:Hrest; [|done].
    injection Hrun as <- <-. apply (IH m3 e4 Hrest).
    apply (next_states_from_ready (state m1)); [done|]. by eapply loop_step_state.
Qed.

(** From READY: a press starts the first pattern, its two cells are played,
    and a second press in the wait state restarts it. *)
Lemma loop_follows_state_graph_witness :
  STATE_INITED
  <= state (machine_after
              ((press ++ [sample LOW 1000; sample HIGH 1500; sample HIGH 80000]
                  ++ [sample LOW 90000; sample HIGH 90100; sample HIGH 190000])
                 ++ [mkInputs LOW HIGH 0 0]
                 ++ [tick 1; tick 2; tick 3; mkInputs LOW HIGH 0 4; tick 5]))
  <= 8.
Proof.
  assert (loop (mkInputs LOW HIGH 0 0) machine_taught
          = Some (tt, machine_after
                        ((press ++ [sample LOW 1000; sample HIGH 1500; sample HIGH 80000]
                            ++ [sample LOW 90000; sample HIGH 90100; sample HIGH 190000])
                           ++ [mkInputs LOW HIGH 0 0]), [])) as H1
    by (vm_compute; reflexivity).
  assert ({e2 | polls loop [tick 1; tick 2; tick 3; mkInputs LOW HIGH 0 4; tick 5]
                  (machine_after
                     ((press ++ [sample LOW 1000; sample HIGH 1500; sample HIGH 80000]
                         ++ [sample LOW 90000; sample HIGH 90100; sample HIGH 190000])
                        ++ [mkInputs LOW HIGH 0 0]))
                = Some (machine_after
                          ((press ++ [sample LOW 1000; sample HIGH 1500; sample HIGH 80000]
                              ++ [sample LOW 90000; sample HIGH 90100; sample HIGH 190000])
                             ++ [mkInputs LOW HIGH 0 0]
                             ++ [tick 1; tick 2; tick 3; mkInputs LOW HIGH 0 4; tick 5]),
                        e2)}) as [e2 H2]
    by (eexists; vm_compute; reflexivity).
  apply (loop_follows_state_graph _ _ _ _ _ _ _ H1 H2).
  vm_compute. split; discriminate.
Defined.

(** ** The LEDs show the state *)

Lemma leds_frame m m0 :
  state m0 = state m -> pins m0 = pins m -> leds_ok m -> leds_ok m0.
Proof. intros Hs Hp. unfold leds_ok. by rewrite Hs, Hp. Qed.

Ltac pin_lookups :=
  cbn [pins set_pins set_state rx_started tx_started wait_started set_prevRx
       set_startMicros set_sig set_rxSize set_rxBuf set_txLen set_txHigh
       set_txBuf set_waitDelayMillis set_waitStartMillis];
  unfold kRedLedPin, kGreenLedPin, LED_BUILTIN;
  repeat first [rewrite lookup_insert_eq | rewrite lookup_insert_ne by done].

(** What an entry action does to the two LEDs. *)
Lemma setState_leds s inp m m' evs :
  setState s inp m = Some (tt, m', evs) -> s <> state m -> 0 <= s <= 8 ->
  state m' = s /\
  pins m' !! kRedLedPin =
    (if s =? 8 then pins m !! kRedLedPin else Some (red_of s)) /\
  pins m' !! kGreenLedPin =
    (if 4 <=? s then pins m !! kGreenLedPin else Some (green_of s)).
Proof.
  intros Hrun Hne Hs.
  split; [by apply setState_frame in Hrun as [? _]|].
  revert Hrun. rewrite setState_ne by done.
  assert (s = 0 \/ s = 1 \/ s = 2 \/ s = 3 \/ s = 4 \/ s = 5 \/ s = 6 \/ s = 7
          \/ s = 8) as Hcases by lia.
  destruct Hcases as [-> | [-> | [-> | [-> | [-> | [-> | [-> | [-> | ->]]]]]]]].
  - change (switch_state 0) with enter_UNINITED.
    intros [= <- <-]. by pin_lookups.
  - change (switch_state 1) with enter_LEARN_0.
    unfold enter_LEARN_0, startRx. rewrite !digitalWrite_bind, startRx_sized_eq.
    destruct (decide _); [|done]. intros [= <- <-]. by pin_lookups.
  - change (switch_state 2) with enter_LEARN_1.
    unfold enter_LEARN_1, startRx. rewrite !digitalWrite_bind, startRx_sized_eq.
    destruct (decide _); [|done]. intros [= <- <-]. by pin_lookups.
  - change (switch_state 3) with enter_INITED.
    intros [= <- <-]. by pin_lookups.
  - change (switch_state 4) with enter_SEND_0.
    unfold enter_SEND_0. rewrite startTx_eq.
    destruct (trimTail _ _ _); [|done]. intros [= <- <-]. by pin_lookups.
  - change (switch_state 5) with enter_WAIT_0.
    intros [= <- <-]. by pin_lookups.
  - change (switch_state 6) with enter_SEND_1.
    unfold enter_SEND_1. rewrite startTx_eq.
    destruct (trimTail _ _ _); [|done]. intros [= <- <-]. by pin_lookups.
  - change (switch_state 7) with enter_WAIT_1.
    intros [= <- <-]. by pin_lookups.
  - change (switch_state 8) with (@ret unit tt).
    by intros [= <- <-].
Qed.

Lemma setState_leds_ok s inp m m' evs :
  leds_ok m -> In s (next_states (state m)) ->
  setState s inp m = Some (tt, m', evs) -> leds_ok m'.
Proof.
  intros (Hrange & Hred & Hgreen) Hedge Hrun.
  destruct (decide (s = state m)) as [->|Hne].
  { rewrite setState_same in Hrun. by injection Hrun as <- <-. }
  assert (0 <= s <= 8 /\ (4 <= s -> 3 <= state m) /\ (s = 8 -> state m = 7))
    as (Hs & Hge & H8).
  { revert Hedge. unfold next_states, STATE_UNINITED, STATE_LEARN_0,
      STATE_LEARN_1, STATE_INITED, STATE_SEND_0, STATE_WAIT_0, STATE_SEND_1,
      STATE_WAIT_1. repeat case_eqb; cbn; lia. }
  destruct (setState_leds _ _ _ _ _ Hrun Hne Hs) as (Hst & Hr & Hg).
  unfold leds_ok. rewrite Hst, Hr, Hg. split; [done|]. split.
  - destruct (Z.eqb_spec s 8) as [->|_]; [|done].
    rewrite Hred, (H8 eq_refl). done.
  - destruct (Z.leb_spec 4 s) as [H4|_]; [|done].
    rewrite Hgreen. f_equal. unfold green_of, STATE_UNINITED, STATE_LEARN_0.
    repeat case_eqb; cbn; (done || lia).
Qed.

Lemma loop_leds inp m m' evs :
  leds_ok m -> loop inp m = Some (tt, m', evs) -> leds_ok m'.
Proof.
  intros Hok. rewrite loop_eq.
  assert (Hbtn : leds_ok (set_prevButton (in_button inp) m))
    by (by apply leds_frame with m).
  destruct (Z.eqb_spec (state m) STATE_UNINITED) as [Hs|Hs0].
  { rewrite loopUninitialized_eq. destruct (button_edge inp m).
    - apply setState_leds_ok; [done|]. cbn [state set_prevButton].
      rewrite Hs. cbn. tauto.
    - by intros [= <- <-]. }
  destruct ((state m =? STATE_LEARN_0) || (state m =? STATE_LEARN_1)) eqn:Hlearn.
  { apply orb_true_iff in Hlearn.
    rewrite loopRx_eq.
    destruct (timed_out inp m).
    { apply setState_leds_ok; [done|].
      destruct Hlearn as [H|H]; apply Z.eqb_eq in H; rewrite H; cbn; tauto. }
    destruct (in_rx inp =? prevRx m); [by intros [= <- <-]|].
    destruct (rxBuf m) as [p|]; [|done].
    destruct (decide _); [|done].
    destruct (wrap16 (rxSize m - 1) =? 0).
    - apply setState_leds_ok; [by apply leds_frame with m|].
      cbn [state rx_recorded set_startMicros set_rxSize set_rxBuf set_sig set_prevRx].
      destruct Hlearn as [H|H]; apply Z.eqb_eq in H; rewrite H; cbn; tauto.
    - intros [= <- <-]. by apply leds_frame with m. }
  destruct (Z.eqb_spec (state m) STATE_INITED) as [Hs|Hs3].
  { rewrite loopInitialized_eq. destruct (button_edge inp m).
    - apply setState_leds_ok; [done|]. cbn [state set_prevButton].
      rewrite Hs. cbn. tauto.
    - by intros [= <- <-]. }
  destruct ((state m =? STATE_SEND_0) || (state m =? STATE_SEND_1)) eqn:Hsend.
  { apply orb_true_iff in Hsend.
    rewrite loopTx_eq.
    destruct (txBuf m) as [p|]; [|done].
    destruct (sig m !! p) as [d|]; [|done].
    destruct (wrap16 (txLen m - 1) =? 0).
    - destruct (setState _ inp _) as [[[[] m2] e2]|] eqn:Hset; [|done].
      intros [= <- <-]. eapply setState_leds_ok; [| |exact Hset].
      + by apply leds_frame with m.
      + cbn [state set_txBuf tx_advanced set_txHigh set_txLen].
        destruct Hsend as [H|H]; apply Z.eqb_eq in H; rewrite H; cbn; tauto.
    - intros [= <- <-]. by apply leds_frame with m. }
  destruct ((state m =? STATE_WAIT_0) || (state m =? STATE_WAIT_1)) eqn:Hwait.
  { apply orb_true_iff in Hwait.
    rewrite loopWait_eq.
    destruct (button_edge inp m).
    { apply setState_leds_ok; [done|]. cbn [state set_prevButton].
      destruct Hwait as [H|H]; apply Z.eqb_eq in H; rewrite H; cbn; tauto. }
    destruct (wait_over inp m); [|by intros [= <- <-]].
    apply setState_leds_ok; [by apply leds_frame with m|].
    cbn [state set_prevButton set_waitStartMillis].
    destruct Hwait as [H|H]; apply Z.eqb_eq in H; rewrite H; cbn; tauto. }
  apply setState_leds_ok; [done|].
  apply orb_false_iff in Hlearn as [H1 H2], Hsend as [H4 H6], Hwait as [H5 H7].
  unfold next_states. apply Z.eqb_neq in Hs0, Hs3.
  by rewrite Hs0, H1, H2, Hs3, H4, H5, H6, H7; left.
Qed.

Lemma leds_ok_booted : leds_ok booted.
Proof. split; [done|]. split; reflexivity. Qed.

(** X6. In every machine the sketch can reach, the state is one of the eight
    enumerators or 8, and the two LEDs show it as the table at the head of
    the source says: both off in UNINITIALIZED, red on in LEARN_0, both on in
    LEARN_1, green on in READY; and from then on green stays on, with red on
    while a pattern is sent and off while the sketch waits. *)
Theorem leds_show_the_state (m : Machine) (Hreach : reachable m) :
  0 <= state m <= 8 /\
  pins m !! kRedLedPin = Some (red_of (state m)) /\
  pins m !! kGreenLedPin = Some (green_of (state m)).
Proof.
  change (leds_ok m).
  induction Hreach as [|m inp m' evs _ IH Hstep]; [apply leds_ok_booted|].
  by eapply loop_leds.
Qed.

Lemma leds_show_the_state_witness :
  pins (machine_after run_to_WAIT_1) !! kRedLedPin = Some LOW /\
  pins (machine_after run_to_WAIT_1) !! kGreenLedPin = Some HIGH.
Proof.
  destruct (leds_show_the_state (machine_after run_to_WAIT_1)
              (machine_after_reachable run_to_WAIT_1)) as (_ & Hred & Hgreen).
  split.
  - rewrite Hred. vm_compute. reflexivity.
  - rewrite Hgreen. vm_compute. reflexivity.
Defined.

(** ** Waiting for the button *)

Lemma button_edge_press inp m :
  in_button inp = HIGH -> prevButton m <> HIGH -> button_edge inp m = true.
Proof.
  intros Hb Hp. unfold button_edge. rewrite Hb.
  apply andb_true_iff. split; [|done].
  apply negb_true_iff, Z.eqb_neq. congruence.
Qed.

Lemma loop_button_idle inp m :
  state m = STATE_UNINITED \/ state m = STATE_INITED ->
  button_edge inp m = false ->
  loop inp m = Some (tt, set_prevButton (in_button inp) m, []).
Proof.
  intros [Hs|Hs] Hb; rewrite loop_eq, Hs; cbn [Z.eqb STATE_UNINITED STATE_INITED
    STATE_LEARN_0 STATE_LEARN_1 orb Pos.eqb].
  - by rewrite loopUninitialized_eq, Hb.
  - by rewrite loopInitialized_eq, Hb.
Qed.

Lemma quiet_polls ins : forall m,
  state m = STATE_UNINITED \/ state m = STATE_INITED ->
  quiet (prevButton m) (map in_button ins) = true ->
  polls loop ins m
  = Some (set_prevButton (last_level (prevButton m) (map in_button ins)) m, []).
Proof.
  induction ins as [|inp ins IH]; intros m Hs Hq; cbn [map quiet last_level polls] in *.
  - by rewrite set_prevButton_same.
  - apply andb_true_iff in Hq as [Hhd Htl]. apply negb_true_iff in Hhd.
    rewrite (loop_button_idle inp m Hs Hhd).
    rewrite (IH (set_prevButton (in_button inp) m)) by done. done.
Qed.

(** X1. In UNINITIALIZED the sketch does nothing but follow the button for as
    long as its level makes no step to HIGH: the polls return with no
    hardware call and with the state, the slots and the pins as they were.
    The poll that then sees the button HIGH after another level switches the
    red LED on and the green LED off and enters LEARN_0 with slot 0 cleared,
    slot 1 untouched, and the capture cursor at the start of slot 0 with all
    400 cells free. *)
Theorem uninitialized_until_press (ins : list Inputs) (inp : Inputs) (m : Machine)
  (Hs : state m = STATE_UNINITED) (Hlen : length (sig m) = kSigLen)
  (Hquiet : quiet (prevButton m) (map in_button ins) = true)
  (Hwas : last_level (prevButton m) (map in_button ins) <> HIGH)
  (Hpress : in_button inp = HIGH) :
  exists mq m',
    polls loop ins m = Some (mq, []) /\
    state mq = STATE_UNINITED /\ sig mq = sig m /\ pins mq = pins m /\
    loop inp mq
    = Some (tt, m', [EvDigitalWrite kRedLedPin HIGH; EvDigitalWrite kGreenLedPin LOW]) /\
    state m' = STATE_LEARN_0 /\
    slot 0 (sig m') = replicate kSlotLen 0 /\
    slot 1 (sig m') = slot 1 (sig m) /\
    rxBuf m' = Some (slotBase 0) /\ rxSize m' = Z.of_nat kSlotLen /\
    startMicros m' = 0 /\ prevRx m' = HIGH.
Proof.
  set (mq := set_prevButton (last_level (prevButton m) (map in_button ins)) m).
  assert (button_edge inp mq = true) as Hedge by (by apply button_edge_press).
  eexists mq, _. split; [by apply quiet_polls; [left|]|].
  split; [done|]. split; [done|]. split; [done|]. split.
  { rewrite loop_eq. change (state mq) with (state m). rewrite Hs.
    cbn [Z.eqb STATE_UNINITED]. rewrite loopUninitialized_eq, Hedge.
    rewrite setState_LEARN_0; [reflexivity| |done].
    cbn. by rewrite Hs. }
  split; [done|]. split; [apply rx_started_slot; [lia|exact Hlen]|].
  split; [by rewrite rx_started_other_slot by done|]. done.
Qed.

Lemma uninitialized_until_press_witness :
  exists mq m',
    polls loop [tick 0; tick 1; mkInputs LOW HIGH 0 2; mkInputs LOW HIGH 0 3] booted
    = Some (mq, []) /\
    loop (tick 4) mq
    = Some (tt, m', [EvDigitalWrite kRedLedPin HIGH; EvDigitalWrite kGreenLedPin LOW]) /\
    state m' = STATE_LEARN_0.
Proof.
  destruct (uninitialized_until_press
              [tick 0; tick 1; mkInputs LOW HIGH 0 2; mkInputs LOW HIGH 0 3]
              (tick 4) booted)
    as (mq & m' & Hq & _ & _ & _ & Hp & Hst & _);
    [reflexivity|reflexivity|reflexivity|discriminate|reflexivity|].
  exists mq, m'. split; [exact Hq|]. split; [exact Hp|exact Hst].
Defined.

(** X2. In READY the sketch likewise only follows the button until its level
    steps to HIGH.  The poll that sees the step switches the red LED on and
    enters SEND_0 with the playback cursor at the start of slot 0, the
    polarity at carrier-off and the remaining length at the length of slot 0
    without its trailing zeros; the slots are not touched. *)
Theorem initialized_until_press (ins : list Inputs) (inp : Inputs) (m : Machine)
  (Hs : state m = STATE_INITED) (Hlen : length (sig m) = kSigLen)
  (Hquiet : quiet (prevButton m) (map in_button ins) = true)
  (Hwas : last_level (prevButton m) (map in_button ins) <> HIGH)
  (Hpress : in_button inp = HIGH) :
  exists mq m' N,
    polls loop ins m = Some (mq, []) /\
    state mq = STATE_INITED /\ sig mq = sig m /\ pins mq = pins m /\
    loop inp mq = Some (tt, m', [EvDigitalWrite kRedLedPin HIGH]) /\
    state m' = STATE_SEND_0 /\ sig m' = sig m /\
    txBuf m' = Some (slotBase 0) /\ txHigh m' = false /\
    txLen m' = Z.of_nat N /\ trimmed (slot 0 (sig m)) N.
Proof.
  set (mq := set_prevButton (last_level (prevButton m) (map in_button ins)) m).
  assert (button_edge inp mq = true) as Hedge by (by apply button_edge_press).
  destruct (trimTail_trimmed 0 (sig m)) as (N & HN & Htrim); [lia|done|].
  exists mq, (tx_started 0 N (set_state STATE_SEND_0
                                (set_prevButton (in_button inp) mq))), N.
  split; [by apply quiet_polls; [right|]|].
  split; [done|]. split; [done|]. split; [done|]. split.
  { rewrite loop_eq. change (state mq) with (state m). rewrite Hs.
    cbn [Z.eqb STATE_UNINITED STATE_INITED STATE_LEARN_0 STATE_LEARN_1 orb Pos.eqb].
    rewrite loopInitialized_eq, Hedge.
    rewrite setState_SEND_0 by (cbn; by rewrite Hs).
    change (sig (set_prevButton (in_button inp) mq)) with (sig m).
    by rewrite HN. }
  done.
Qed.

Lemma initialized_until_press_witness :
  exists mq m',
    polls loop [tick 0; mkInputs LOW HIGH 0 1] machine_taught = Some (mq, []) /\
    loop (tick 2) mq = Some (tt, m', [EvDigitalWrite kRedLedPin HIGH]) /\
    state m' = STATE_SEND_0 /\ txLen m' = 2.
Proof.
  destruct (initialized_until_press [tick 0; mkInputs LOW HIGH 0 1] (tick 2)
              machine_taught)
    as (mq & m' & N & Hq & _ & _ & _ & Hp & Hst & _ & _ & _ & Hl & Htrim).
  - vm_compute. reflexivity.
  - vm_compute. reflexivity.
  - vm_compute. reflexivity.
  - vm_compute. discriminate.
  - reflexivity.
  - exists mq, m'. split; [exact Hq|]. split; [exact Hp|]. split; [exact Hst|].
    assert (N = 2%nat) as ->; [|exact Hl].
    apply (trimmed_unique (slot 0 (sig machine_taught))); [exact Htrim|].
    assert (slot 0 (sig machine_taught) = [1000; 500] ++ replicate 398 0) as ->
      by (vm_compute; reflexivity).
    apply (trimmed_app_zeros [1000; 500] 398). intros v [= <-]. discriminate.
Defined.

(** ** The wait states *)

(** X3. In either wait state, the poll that sees the button HIGH after
    another level enters SEND_0 at once, however little of the delay has
    passed: it switches the red LED on and points the playback cursor at the
    start of slot 0 with the remaining length at the length of slot 0 without
    its trailing zeros.  The slots and the two wait variables are not
    touched. *)
Theorem wait_button_restarts (inp : Inputs) (m : Machine)
  (Hlen : length (sig m) = kSigLen)
  (Hs : state m = STATE_WAIT_0 \/ state m = STATE_WAIT_1)
  (Hwas : prevButton m <> HIGH) (Hpress : in_button inp = HIGH) :
  exists m' N,
    loop inp m = Some (tt, m', [EvDigitalWrite kRedLedPin HIGH]) /\
    state m' = STATE_SEND_0 /\ sig m' = sig m /\
    txBuf m' = Some (slotBase 0) /\ txHigh m' = false /\
    txLen m' = Z.of_nat N /\ trimmed (slot 0 (sig m)) N /\
    waitStartMillis m' = waitStartMillis m /\
    waitDelayMillis m' = waitDelayMillis m.
Proof.
  assert (button_edge inp m = true) as Hedge by (by apply button_edge_press).
  destruct (trimTail_trimmed 0 (sig m)) as (N & HN & Htrim); [lia|done|].
  exists (tx_started 0 N (set_state STATE_SEND_0
                            (set_prevButton (in_button inp) m))), N.
  split; [|done].
  rewrite loop_waiting, loopWait_eq, Hedge by done.
  rewrite setState_SEND_0 by (cbn; by destruct Hs as [-> | ->]).
  change (sig (set_prevButton (in_button inp) m)) with (sig m).
  by rewrite HN.
Qed.

Lemma wait_button_restarts_witness :
  exists m',
    loop (tick 43200008)
      (machine_after (run_to_WAIT_1 ++ [mkInputs LOW HIGH 0 43200007]))
    = Some (tt, m', [EvDigitalWrite kRedLedPin HIGH]) /\
    state m' = STATE_SEND_0.
Proof.
  destruct (wait_button_restarts (tick 43200008)
              (machine_after (run_to_WAIT_1 ++ [mkInputs LOW HIGH 0 43200007])))
    as (m' & N & Hrun & Hst & _).
  - vm_compute. reflexivity.
  - right. vm_compute. reflexivity.
  - vm_compute. discriminate.
  - reflexivity.
  - exists m'. split; [exact Hrun|exact Hst].
Defined.

Lemma sub32_elapsed (s e : Z) :
  0 <= e < 2 ^ 32 -> sub32 ((s + e) mod 2 ^ 32) s = e.
Proof.
  intros He. unfold sub32, wrap32. rewrite Zminus_mod_idemp_l.
  replace (s + e - s) with e by lia. by apply Z.mod_small.
Qed.

(** X4. The wait is timed on the difference of two readings of the 32-bit
    millisecond clock, taken modulo 2^32, so a wrap of the clock during the
    wait does no harm: with [e] milliseconds (fewer than 2^32) gone since the
    wait began and no button event, the poll leaves the wait state exactly
    when [e] is greater than the armed delay, and until then it changes
    nothing but the stored button level. *)
Theorem wait_ends_after_delay (inp : Inputs) (m : Machine) (e : Z)
  (Hlen : length (sig m) = kSigLen)
  (Hs : state m = STATE_WAIT_0 \/ state m = STATE_WAIT_1)
  (Hbtn : in_button inp = prevButton m \/ in_button inp <> HIGH)
  (He : 0 <= e < 2 ^ 32)
  (Hnow : in_millis inp = (waitStartMillis m + e) mod 2 ^ 32) :
  exists m' evs,
    loop inp m = Some (tt, m', evs) /\
    (e <= waitDelayMillis m ->
       m' = set_prevButton (in_button inp) m /\ evs = []) /\
    (waitDelayMillis m < e -> state m' = state m + 1).
Proof.
  assert (button_edge inp m = false) as Hedge.
  { unfold button_edge. destruct Hbtn as [->|Hb].
    - by rewrite Z.eqb_refl.
    - apply andb_false_iff. right. by apply Z.eqb_neq. }
  rewrite loop_waiting, loopWait_eq, Hedge by done.
  unfold wait_over. rewrite Hnow, sub32_elapsed by done.
  destruct (Z.ltb_spec (waitDelayMillis m) e) as [Hover|Hnot].
  - destruct (setState_total (wrap8 (state m + 1)) inp
                (set_waitStartMillis 0 (set_prevButton (in_button inp) m)))
      as (m' & evs & Hrun); [done|].
    exists m', evs. split; [done|]. split; [lia|]. intros _.
    apply setState_frame in Hrun as [-> _].
    by destruct Hs as [-> | ->].
  - eexists _, _. split; [reflexivity|]. split; [done|lia].
Qed.

(** A wait that began 100 ms before the clock wrapped, polled 43,200,001 ms
    later. *)
Lemma wait_ends_after_delay_witness :
  exists m' evs,
    loop (tick 43199901)
      (set_waitStartMillis (2 ^ 32 - 100) (machine_after run_to_WAIT_1))
    = Some (tt, m', evs) /\
    state m' = 8.
Proof.
  destruct (wait_ends_after_delay (tick 43199901)
              (set_waitStartMillis (2 ^ 32 - 100) (machine_after run_to_WAIT_1))
              43200001)
    as (m' & evs & Hrun & _ & Hover).
  - vm_compute. reflexivity.
  - right. vm_compute. reflexivity.
  - left. vm_compute. reflexivity.
  - lia.
  - vm_compute. reflexivity.
  - exists m', evs. split; [exact Hrun|].
    rewrite Hover; [vm_compute; reflexivity|]. vm_compute. reflexivity.
Defined.

(** ** Capture timing *)



(** ** Playback past the end of the signal store *)

(** X8. Playback of an all-zero slot 1 leaves [sig]: [startTx 1] sets the
    remaining length to 0, each of the next 400 polls steps the cursor over
    one cell of the slot without a hardware call, and the poll after them
    reads the cell behind the last one of [sig], which is outside the
    object. *)
Theorem playback_of_empty_slot_1_leaves_sig (inp0 inp : Inputs)
  (ins : list Inputs) (m : Machine)
  (Hlen : length (sig m) = kSigLen)
  (Hzero : slot 1 (sig m) = replicate kSlotLen 0)
  (Hn : length ins = kSlotLen) :
  exists m0 m1,
    startTx 1 inp0 m = Some (tt, m0, [EvDigitalWrite kRedLedPin HIGH]) /\
    polls loopTx ins m0 = Some (m1, []) /\
    txBuf m1 = Some kSigLen /\
    loopTx inp m1 = None /\
    polls loopTx (ins ++ [inp]) m0 = None.
Proof.
  assert (trimmed (slot 1 (sig m)) 0) as Htrim
    by (rewrite Hzero; apply trimmed_zeros).
  assert (tx_wrapped 1 (sig m) (state m) 0 (tx_started 1 0 m)) as Hat0
    by (split; cbn; done).
  destruct (polls_wrapped 1 (sig m) (state m) ins 0 (tx_started 1 0 m))
    as (m1 & Hrun & [Hsig Hst Hb Hl]); [done|lia|done|].
  assert (loopTx inp m1 = None) as Hoff.
  { rewrite loopTx_eq, Hb, Hsig.
    rewrite (lookup_ge_None_2 (sig m)); [done|].
    rewrite Hlen, Hn. unfold slotBase, kSlotLen, kSigLen. lia. }
  exists (tx_started 1 0 m), m1.
  split; [apply startTx_trimmed; [lia|done|done]|]. split; [done|].
  split; [rewrite Hb; f_equal; unfold slotBase, kSlotLen, kSigLen in *; lia|].
  split; [done|].
  rewrite polls_app, Hrun. cbn [polls]. by rewrite Hoff.
Qed.

Lemma playback_of_empty_slot_1_leaves_sig_witness :
  exists m0,
    startTx 1 (tick 0) booted
    = Some (tt, m0, [EvDigitalWrite kRedLedPin HIGH]) /\
    polls loopTx (replicate 400 (tick 0) ++ [tick 0]) m0 = None.
Proof.
  destruct (playback_of_empty_slot_1_leaves_sig (tick 0) (tick 0)
              (replicate 400 (tick 0)) booted)
    as (m0 & m1 & Hstart & _ & _ & _ & Hoff).
  - vm_compute. reflexivity.
  - vm_compute. reflexivity.
  - vm_compute. reflexivity.
  - exists m0. split; [exact Hstart|exact Hoff].
Defined.

(** ** Start-up *)

Lemma quiet_steady (b : Z) (ls : list Z) : forall prev,
  Forall (fun l => l = b) ls -> prev = b \/ b <> HIGH ->
  quiet prev ls = true.
Proof.
  induction ls as [|l ls IH]; intros prev Hall Hb; [done|].
  apply Forall_cons in Hall as [-> Hall]. cbn [quiet].
  rewrite (IH b) by (done || by left). rewrite andb_true_r.
  apply negb_true_iff, andb_false_iff.
  destruct Hb as [->|Hb].
  - left. by rewrite Z.eqb_refl.
  - right. by apply Z.eqb_neq.
Qed.

(** X12. [setup] makes exactly four hardware writes, which drive the
    carrier pin and the three LEDs LOW, and presets the stored button level
    to HIGH.  So when the sketch starts in STATE_UNINITED, a button whose
    level is the same at every poll, whichever level that is, never starts
    learning: every poll returns without a hardware call, the state stays
    STATE_UNINITED and the slots are not touched. *)
Theorem setup_then_steady_button (inp0 : Inputs) (m : Machine) (b : Z)
  (ins : list Inputs)
  (Hs : state m = STATE_UNINITED)
  (Hsteady : Forall (fun inp => in_button inp = b) ins) :
  exists m0 m1,
    setup inp0 m =
      Some (tt, m0, [EvDigitalWrite kTxPin LOW; EvDigitalWrite kRedLedPin LOW;
                     EvDigitalWrite kGreenLedPin LOW;
                     EvDigitalWrite LED_BUILTIN LOW]) /\
    Forall (fun pin => pins m0 !! pin = Some LOW)
      [kTxPin; kRedLedPin; kGreenLedPin; LED_BUILTIN] /\
    prevButton m0 = HIGH /\
    polls loop ins m0 = Some (m1, []) /\
    state m1 = STATE_UNINITED /\ sig m1 = sig m.
Proof.
  eexists _, _. split; [reflexivity|].
  split.
  { unfold kTxPin. repeat constructor; by pin_lookups. }
  split; [reflexivity|].
  split.
  { rewrite quiet_polls; [reflexivity|by left|].
    apply (quiet_steady b).
    - by apply Forall_map.
    - cbn. destruct (decide (b = HIGH)) as [->|Hb]; [by left|by right]. }
  by split.
Qed.

(** Power-on with the button held down (LOW on the pulled-up pin). *)
Lemma setup_then_steady_button_witness :
  exists m1,
    polls loop (replicate 3 (mkInputs LOW HIGH 0 0)) booted = Some (m1, []) /\
    state m1 = STATE_UNINITED.
Proof.
  destruct (setup_then_steady_button (mkInputs LOW LOW 0 0) power_on LOW
              (replicate 3 (mkInputs LOW HIGH 0 0)))
    as (m0 & m1 & Hsetup & _ & _ & Hrun & Hst & _).
  - reflexivity.
  - repeat constructor.
  - assert (m0 = booted) as ->.
    { unfold booted. rewrite Hsetup. reflexivity. }
    exists m1. split; [exact Hrun|exact Hst].
Defined.

(** ** From capture to playback *)

Lemma waveform_app_const (ek e' : list event) (w : list (bool * Z)) :
  (forall c, waveform c e' = w) ->
  forall on, waveform on (ek ++ e') = waveform on ek ++ w.
Proof.
  intros He'. induction ek as [|e ek IH]; intros on; [apply He'|].
  destruct e; cbn [app waveform]; by rewrite IH.
Qed.

Lemma stored_wave_alternating (ds : list Z) : forall k,
  Forall (fun d => d <> 0) ds ->
  stored_wave k ds = alternating (Nat.odd k) ds.
Proof.
  induction ds as [|d ds IH]; intros k Hnz; [done|].
  apply Forall_cons in Hnz as [Hd Hnz]. cbn [stored_wave alternating].
  apply Z.eqb_neq in Hd. rewrite Hd, IH, odd_S_negb by done. done.
Qed.

Lemma gaps_positive (segs : list segment) : forall prev,
  well_timed prev segs -> Forall (fun d => 0 < d) (gaps prev (edge_times segs)).
Proof.
  induction segs as [|s segs IH]; intros prev Hwt; [constructor|].
  cbn [well_timed] in Hwt. destruct Hwt as (_ & Hedge & _ & Hwt).
  cbn [edge_times map gaps]. constructor; [lia|]. by apply IH.
Qed.

(** A whole playback: a slot that holds [ds] and then zeros, [ds] ending in
    a non-zero value, is played by as many polls as [ds] has values. *)
Lemma playback_run (i : nat) (ds : list Z) (n : nat) (inp0 : Inputs)
  (ins : list Inputs) (m : Machine) :
  (i < 2)%nat -> length (sig m) = kSigLen ->
  slot i (sig m) = ds ++ replicate n 0 ->
  ds <> [] -> (forall v, last ds = Some v -> v <> 0) ->
  length ins = length ds ->
  exists m0 m1 evs,
    startTx i inp0 m = Some (tt, m0, [EvDigitalWrite kRedLedPin HIGH]) /\
    polls loopTx ins m0 = Some (m1, evs) /\
    (forall on, waveform on evs = stored_wave 0 ds) /\
    state m1 = wrap8 (state m + 1).
Proof.
  intros Hi Hlen Hslot Hne Hlast Hins.
  assert (trimmed (slot i (sig m)) (length ds)) as Htrim
    by (rewrite Hslot; by apply trimmed_app_zeros).
  assert (length ds <= kSlotLen)%nat as HNle.
  { destruct Htrim as (Hle & _). rewrite slot_length in Hle; [done|].
    rewrite Hlen. unfold slotBase, kSlotLen, kSigLen. lia. }
  destruct (exists_last Hne) as (ds' & d & ->).
  assert (ins <> []) as Hne' by (intros ->; rewrite length_app in Hins; cbn in Hins; lia).
  destruct (exists_last Hne') as (ins' & inp & ->).
  rewrite !length_app in Hins. cbn [length] in Hins.
  assert (length ins' = length ds') as Hins' by lia.
  set (N := length (ds' ++ [d])) in *.
  assert (N = S (length ds')) as HN by (unfold N; rewrite length_app; cbn; lia).
  pose proof (tx_started_at i N m) as Hat0.
  destruct (playback_polls i N (sig m) (state m) ins' 0 (tx_started i N m))
    as (mk & ek & Hrun & Hatk & Hwavek); [done|done|cbn; lia|done|done|].
  cbn [Nat.add] in Hatk. rewrite Hins' in Hatk, Hwavek. rewrite drop_0 in Hwavek.
  assert (slot i (sig m) !! length ds' = Some d) as Hd.
  { rewrite Hslot, lookup_app_l by (rewrite length_app; cbn; lia).
    by apply list_lookup_middle. }
  destruct (loopTx_last i N (sig m) (state m) (length ds') d inp mk)
    as (m' & evs & Hlast' & Hdig & Hst'); [done|lia|done|done|done|].
  exists (tx_started i N m), m',
    (ek ++ (tx_events (Nat.odd (length ds')) d ++ EvNoTone kTxPin :: evs) ++ []).
  split; [by apply startTx_trimmed|].
  split; [by rewrite polls_app, Hrun; cbn [polls]; rewrite Hlast'|].
  split; [|done].
  intros on. rewrite app_nil_r.
  rewrite (waveform_app_const ek _
             (if d =? 0 then [] else [(Nat.odd (length ds'), d)])).
  - rewrite Hwavek, stored_wave_snoc. cbn [Nat.add].
    f_equal. f_equal. rewrite Hslot, <- app_assoc.
    by rewrite take_app_length.
  - intros c. rewrite waveform_tx_events, (waveform_digital _ _ Hdig).
    by rewrite app_nil_r.
Qed.

(** A whole capture, from [startRx] to the poll that sees the timeout. *)
Lemma capture_run (i : nat) (m : Machine) (inp0 : Inputs)
  (s0 : segment) (segs : list segment) (idle : list Z) (lvl T : Z) :
  (i < 2)%nat -> length (sig m) = kSigLen ->
  state m = STATE_LEARN_0 + Z.of_nat i ->
  (S (length segs) < kSlotLen)%nat ->
  well_timed 0 (s0 :: segs) ->
  Forall (fun t => last_edge (seg_edge s0) segs < t
                   < last_edge (seg_edge s0) segs + 65536) idle ->
  last_edge (seg_edge s0) segs + 65536 <= T < 2 ^ 32 ->
  exists m0 m1 evs,
    startRx i inp0 m = Some (tt, m0, []) /\
    polls loopRx
      (capture_polls 0 (s0 :: segs)
         ++ map (sample (rx_level (S (length segs)))) idle
         ++ [sample lvl T]) m0 = Some (m1, evs) /\
    slot i (sig m1) =
      (wrap16 (seg_edge s0) :: gaps (seg_edge s0) (edge_times segs))
        ++ replicate (kSlotLen - S (length segs)) 0 /\
    state m1 = state m + 1.
Proof.
  intros Hi Hlen Hs Hcap Htimes Hquiet HT.
  cbn [well_timed] in Htimes. destruct Htimes as (Hidle0 & Hedge0 & _ & Hwt).
  pose proof (rx_started_at i m Hlen Hs) as Hat0.
  assert (1 < kSlotLen)%nat as Hone by (unfold kSlotLen; lia).
  assert (0 <> 0 -> seg_edge s0 - 0 < 65536) as Hgap0 by (intros H; by destruct H).
  destruct (capture_segment i 0 0 s0 (rx_started 2 i m) Hat0 Hone Hi
              (Z.le_refl 0) Hidle0 Hedge0 Hgap0)
    as (m1 & Hrun1 & Hat1 & Hsig1).
  assert (0 < seg_edge s0) as Hpos by lia.
  assert (1 + length segs < kSlotLen)%nat as Hcap' by lia.
  destruct (capture_segments i segs 1 (seg_edge s0) m1 Hi Hpos Hat1 Hwt Hcap')
    as (m2 & Hrun2 & Hat2 & Hslot2).
  destruct (last_edge_bounds segs _ Hwt) as [Hle _].
  assert (0 < last_edge (seg_edge s0) segs) as Hpos' by lia.
  destruct (loopRx_final_poll i (1 + length segs) (last_edge (seg_edge s0) segs)
              lvl T m2 Hat2 Hi Hpos' HT) as (m3 & evs & Hrun3 & Hst3 & Hslot3).
  exists (rx_started 2 i m), m3, evs.
  split; [by apply startRx_eq|].
  split; [|split].
  - cbn [capture_polls]. rewrite <- app_assoc.
    rewrite polls_app, Hrun1, polls_app, Hrun2, polls_app.
    rewrite (loopRx_idle_polls i (1 + length segs) (last_edge (seg_edge s0) segs)).
    + cbn [polls]. rewrite Hrun3. cbn [app]. by rewrite app_nil_r.
    + done.
    + eapply Forall_impl; [exact Hquiet|]. cbn. intros t Ht. right. lia.
  - rewrite Hslot3, Hslot2, Hsig1.
    rewrite slot_insert_in by (unfold kSlotLen; lia).
    rewrite rx_started_slot by done.
    change (take 1 (<[0%nat:=wrap16 (sub32 (seg_edge s0) 0)]> (replicate kSlotLen 0)))
      with [wrap16 (sub32 (seg_edge s0) 0)].
    rewrite drop_insert_lt by lia. rewrite drop_replicate.
    rewrite sub32_small by lia. rewrite Z.sub_0_r. done.
  - rewrite Hst3. rewrite (rx_at_state _ _ _ _ Hat2). by rewrite Hs.
Qed.

(** X11. What is learned is what is sent.  The receiver shows at most 399
    edges at clock readings [0 < t0 < t1 < ... < tn], the first before
    65,536 us and each later one less than 65,536 us after the one before,
    and then the timeout passes.  Whenever slot [i] still holds what this
    capture left, a playback of slot [i] takes [n + 1] polls, and the carrier
    wave of their hardware calls is the pattern seen: off for [t0], on for
    [t1 - t0], off for [t2 - t1], and so on; the last of those polls leaves
    the sending state. *)
Theorem learned_pattern_is_replayed (i : nat) (m : Machine) (inp0 : Inputs)
  (s0 : segment) (segs : list segment) (idle : list Z) (lvl T : Z)
  (Hi : (i < 2)%nat) (Hlen : length (sig m) = kSigLen)
  (Hs : state m = STATE_LEARN_0 + Z.of_nat i)
  (Hcap : (S (length segs) < kSlotLen)%nat)
  (Htimes : well_timed 0 (s0 :: segs))
  (Hfirst : seg_edge s0 < 65536)
  (Hidle : Forall (fun t => last_edge (seg_edge s0) segs < t
                            < last_edge (seg_edge s0) segs + 65536) idle)
  (HT : last_edge (seg_edge s0) segs + 65536 <= T < 2 ^ 32) :
  exists m0 m1 evs,
    startRx i inp0 m = Some (tt, m0, []) /\
    polls loopRx
      (capture_polls 0 (s0 :: segs)
         ++ map (sample (rx_level (S (length segs)))) idle
         ++ [sample lvl T]) m0 = Some (m1, evs) /\
    forall (m2 : Machine) (tx0 : Inputs) (txs : list Inputs),
      length (sig m2) = kSigLen -> slot i (sig m2) = slot i (sig m1) ->
      length txs = S (length segs) ->
      exists m3 m4 evs',
        startTx i tx0 m2 = Some (tt, m3, [EvDigitalWrite kRedLedPin HIGH]) /\
        polls loopTx txs m3 = Some (m4, evs') /\
        waveform false evs'
          = alternating false (gaps 0 (edge_times (s0 :: segs))) /\
        state m4 = wrap8 (state m2 + 1).
Proof.
  destruct (capture_run i m inp0 s0 segs idle lvl T Hi Hlen Hs Hcap Htimes
              Hidle HT) as (m0 & m1 & evs & Hstart & Hrun & Hslot & _).
  exists m0, m1, evs. split; [done|]. split; [done|].
  intros m2 tx0 txs Hlen2 Hslot2 Htxs.
  pose proof (gaps_positive _ _ Htimes) as Hpos.
  cbn [edge_times map gaps] in *. rewrite Z.sub_0_r in *.
  cbn [well_timed] in Htimes. destruct Htimes as (_ & Hedge0 & _ & _).
  assert (wrap16 (seg_edge s0) = seg_edge s0) as Hw
    by (unfold wrap16; apply Z.mod_small; lia).
  rewrite Hw in Hslot. rewrite <- Hslot2 in Hslot.
  set (ds := seg_edge s0 :: gaps (seg_edge s0) (map seg_edge segs)) in *.
  assert (length ds = S (length segs)) as Hds.
  { unfold ds. cbn [length]. f_equal. clear.
    generalize (seg_edge s0). induction segs as [|s segs IH]; intros t; [done|].
    cbn [map gaps length]. by rewrite IH. }
  destruct (playback_run i ds (kSlotLen - S (length segs)) tx0 txs m2)
    as (m3 & m4 & evs' & Hstart' & Hrun' & Hwave & Hst); [done|done|done|done| |lia|].
  { intros v Hv. apply last_Some_elem_of in Hv.
    rewrite Forall_forall in Hpos. apply Hpos in Hv. lia. }
  exists m3, m4, evs'. split; [done|]. split; [done|]. split; [|done].
  rewrite Hwave. apply (stored_wave_alternating ds 0).
  eapply Forall_impl; [exact Hpos|]. cbn. lia.
Qed.

(** The first pattern of [run_to_WAIT_1], played from the machine that has
    learned both patterns. *)
Lemma learned_pattern_is_replayed_witness :
  exists m3 m4 evs',
    startTx 0 (tick 5) machine_taught
    = Some (tt, m3, [EvDigitalWrite kRedLedPin HIGH]) /\
    polls loopTx [tick 5; tick 5] m3 = Some (m4, evs') /\
    waveform false evs' = [(false, 1000); (true, 500)].
Proof.
  destruct (learned_pattern_is_replayed 0
              (set_state STATE_LEARN_0 (machine_after press)) (sample HIGH 0)
              (mkSegment [] 1000) [mkSegment [1200] 1500] [1700] HIGH 80000)
    as (m0 & m1 & evs & Hstart & Hrun & Hplay).
  - lia.
  - vm_compute. reflexivity.
  - vm_compute. reflexivity.
  - unfold kSlotLen. cbn. lia.
  - cbn. repeat first [split | constructor]; try lia.
  - cbn. lia.
  - cbn. repeat first [split | constructor]; try lia.
  - cbn. lia.
  - assert (slot 0 (sig m1) = [1000; 500] ++ replicate 398 0) as Hslot1.
    { assert (exists m0', startRx 0 (sample HIGH 0)
                (set_state STATE_LEARN_0 (machine_after press))
              = Some (tt, m0', []) /\
              exists m1' e1',
                polls loopRx
                  (capture_polls 0 [mkSegment [] 1000; mkSegment [1200] 1500]
                     ++ map (sample (rx_level 2)) [1700] ++ [sample HIGH 80000])
                  m0' = Some (m1', e1') /\
                slot 0 (sig m1') = [1000; 500] ++ replicate 398 0)
        as (m0' & Hstart0 & m1' & e1' & Hrun1 & Hs1).
      { eexists. split; [vm_compute; reflexivity|].
        eexists _, _. split; vm_compute; reflexivity. }
      rewrite Hstart0 in Hstart. injection Hstart as <-.
      cbn [length] in Hrun. rewrite Hrun1 in Hrun. injection Hrun as <- _.
      exact Hs1. }
    destruct (Hplay machine_taught (tick 5) [tick 5; tick 5])
      as (m3 & m4 & evs' & Hstart' & Hrun' & Hwave & _).
    + vm_compute. reflexivity.
    + rewrite Hslot1. vm_compute. reflexivity.
    + reflexivity.
    + exists m3, m4, evs'. split; [exact Hstart'|]. split; [exact Hrun'|].
      exact Hwave.
Defined.

(** ** Pointer size *)

Lemma startRx_four_byte_pointers_witness :
  (exists m', startRx_sized 4 0 (tick 0) booted = Some (tt, m', []) /\
              slot 1 (sig m') = replicate kSlotLen 0) /\
  startRx_sized 4 1 (tick 0) booted = None.
Proof.
  apply (startRx_four_byte_pointers (tick 0) booted).
  vm_compute. reflexivity.
Defined.

(** ** Outside the sending states *)

Lemma setState_returns_digital s inp m :
  length (sig m) = kSigLen ->
  exists m' evs,
    setState s inp m = Some (tt, m', evs) /\ Forall is_digitalWrite evs.
Proof.
  intros Hlen. destruct (setState_total s inp m Hlen) as (m' & evs & Hrun).
  exists m', evs. split; [done|]. by eapply setState_events_digital.
Qed.

(** X13. In every machine reached from power-on that is not in a sending
    state, a call of [loop] returns, whatever the inputs, and the only
    hardware calls it makes are writes to the LEDs: outside SEND_0 and SEND_1
    the sketch never switches the carrier, never blocks in a delay, and
    never leaves [sig]. *)
Theorem loop_outside_sending (inp : Inputs) (m : Machine)
  (Hreach : reachable m)
  (Hs0 : state m <> STATE_SEND_0) (Hs1 : state m <> STATE_SEND_1) :
  exists m' evs,
    loop inp m = Some (tt, m', evs) /\ Forall is_digitalWrite evs.
Proof.
  pose proof (reachable_inv m Hreach) as Hinv.
  pose proof Hinv as (Hlen & _).
  assert (forall s, exists m' evs,
            setState s inp (set_prevButton (in_button inp) m) = Some (tt, m', evs)
            /\ Forall is_digitalWrite evs) as Hbtn
    by (intros s; by apply setState_returns_digital).
  assert (exists m' evs, Some (tt, set_prevButton (in_button inp) m, [])
                         = Some (tt, m', evs) /\ Forall is_digitalWrite evs)
    as Hidle by (eexists _, _; split; [reflexivity|constructor]).
  rewrite loop_eq.
  destruct (Z.eqb_spec (state m) STATE_UNINITED) as [Hs|_].
  { rewrite loopUninitialized_eq. by destruct (button_edge inp m). }
  assert (forall i, (i < 2)%nat -> state m = STATE_LEARN_0 + Z.of_nat i ->
            exists m' evs, loopRx inp m = Some (tt, m', evs)
                           /\ Forall is_digitalWrite evs) as Hrx.
  { intros i Hi Hs.
    destruct (learning_rx_ok i m Hinv Hi Hs) as (p & Hp & Hsz & Hsum & _).
    rewrite loopRx_eq.
    destruct (timed_out inp m); [by apply setState_returns_digital|].
    destruct (in_rx inp =? prevRx m);
      [eexists _, _; split; [reflexivity|constructor]|].
    rewrite Hp, decide_True
      by (rewrite Hlen; unfold slotBase, kSlotLen, kSigLen in *; lia).
    destruct (wrap16 (rxSize m - 1) =? 0).
    - apply setState_returns_digital. cbn. by rewrite length_insert.
    - eexists _, _. split; [reflexivity|constructor]. }
  destruct (Z.eqb_spec (state m) STATE_LEARN_0) as [Hs|_];
    [by apply (Hrx 0%nat); [lia|]|].
  destruct (Z.eqb_spec (state m) STATE_LEARN_1) as [Hs|_];
    [by apply (Hrx 1%nat); [lia|]|].
  cbn [orb].
  destruct (Z.eqb_spec (state m) STATE_INITED) as [Hs|_].
  { rewrite loopInitialized_eq. by destruct (button_edge inp m). }
  destruct (Z.eqb_spec (state m) STATE_SEND_0) as [Hs|_]; [done|].
  destruct (Z.eqb_spec (state m) STATE_SEND_1) as [Hs|_]; [done|].
  cbn [orb].
  destruct ((state m =? STATE_WAIT_0) || (state m =? STATE_WAIT_1)).
  - rewrite loopWait_eq. destruct (button_edge inp m); [done|].
    destruct (wait_over inp m); [|done].
    by apply setState_returns_digital.
  - by apply setState_returns_digital.
Qed.

(** The poll that ends the twelve-hour wait of [run_to_WAIT_1]. *)
Lemma loop_outside_sending_witness :
  exists m' evs,
    loop (tick 86400020) (machine_after run_to_WAIT_1) = Some (tt, m', evs) /\
    Forall is_digitalWrite evs.
Proof.
  apply (loop_outside_sending (tick 86400020) (machine_after run_to_WAIT_1)).
  - apply machine_after_reachable.
  - vm_compute. discriminate.
  - vm_compute. discriminate.
Defined.
